(** * OpenAITextVectorizer: a shallow embedding of
      redisvl/utils/vectorize/text/openai.py

    The class wraps the OpenAI embeddings endpoint.  Its four entry points
    ([embed], [embed_many], [aembed], [aembed_many]) validate their input,
    batch it, call the remote endpoint under a tenacity [retry] decorator and
    post-process the answer.  The constructor builds the two clients and
    probes the endpoint once to learn the dimension of the model.

    Python objects are modelled by [pyval], exceptions by [exn], the object
    [self] and the trace of observable events by [state].  Synchronous code is
    written in the state-and-exception monad [M]; [async def] code is written
    as a coroutine [coro] that suspends on [await] and is driven by the event
    loop [run_until_complete]. *)

From Stdlib Require Import ZArith Lia.
From Stdlib Require Import Floats.SpecFloat.
From stdpp Require Import base option list strings gmap.

(** ** Python values *)

(** A Python [float] is an IEEE 754 binary64 value. *)
Definition float : Type := spec_float.

#[warnings="-register-all"]
Inductive pyval : Type :=
| PNone
| PBool (b : bool)
| PInt (z : Z)
| PFloat (x : float)
| PStr (s : string)
| PList (items : list pyval)
| PDict (items : list (string * pyval)).

(** [isinstance(v, str)] *)
Definition isinstance_str (v : pyval) : bool :=
  match v with PStr _ => true | _ => false end.

(** Truth value of an object, as tested by [if v] and [not v]. *)
Definition truthy (v : pyval) : bool :=
  match v with
  | PNone => false
  | PBool b => b
  | PInt z => negb (z =? 0)%Z
  | PFloat x => match x with S754_zero _ => false | _ => true end
  | PStr s => match s with EmptyString => false | _ => true end
  | PList l => match l with [] => false | _ => true end
  | PDict d => match d with [] => false | _ => true end
  end.

(** Keyword arguments and configuration dictionaries. *)
Abbreviation kwargs_t := (gmap string pyval).

(** Truth value of a dictionary: it is not empty. *)
Definition dict_truthy (d : kwargs_t) : bool := negb (Nat.eqb (size d) 0).

(** ** Exceptions *)

Inductive exn : Type :=
| TypeError (msg : string)
| ValueError (msg : string)
| KeyError (msg : string)
| IndexError (msg : string)
| ImportError (msg : string)
| AttributeError (msg : string)
(** [tenacity.RetryError], raised when the stop condition is reached; it
    carries the exception of the last attempt. *)
| RetryError (last_attempt : exn)
(** A [BaseException] that is not an [Exception], such as
    [KeyboardInterrupt]. *)
| BaseExc (name msg : string)
(** Any other subclass of [Exception] that is not a [TypeError], such as the
    errors of the OpenAI client. *)
| OtherError (name msg : string).

(** [isinstance(e, TypeError)] *)
Definition is_TypeError (e : exn) : bool :=
  match e with TypeError _ => true | _ => false end.

(** [isinstance(e, ValueError)] *)
Definition is_ValueError (e : exn) : bool :=
  match e with ValueError _ => true | _ => false end.

(** [isinstance(e, (KeyError, IndexError))] *)
Definition is_KeyError_or_IndexError (e : exn) : bool :=
  match e with KeyError _ | IndexError _ => true | _ => false end.

(** [isinstance(e, Exception)] *)
Definition is_Exception (e : exn) : bool :=
  match e with BaseExc _ _ => false | _ => true end.

(** [str(e)].  The text of a [RetryError] holds the address of a future; the
    model keeps the text of the wrapped exception in its place. *)
Fixpoint exn_str (e : exn) : string :=
  match e with
  | TypeError m | ValueError m | KeyError m | IndexError m
  | ImportError m | AttributeError m => m
  | RetryError e' => "RetryError[" +:+ exn_str e' +:+ "]"
  | BaseExc _ m | OtherError _ m => m
  end.

Inductive res (A : Type) : Type :=
| Ok (a : A)
| Err (e : exn).
Arguments Ok {A} a.
Arguments Err {A} e.

Definition res_bind {A B} (r : res A) (f : A -> res B) : res B :=
  match r with Ok a => f a | Err e => Err e end.

(** A list comprehension [[f(x) for x in l]] whose body may raise. *)
Fixpoint res_map {A B} (f : A -> res B) (l : list A) : res (list B) :=
  match l with
  | [] => Ok []
  | x :: l' =>
      res_bind (f x) (fun y => res_bind (res_map f l') (fun ys => Ok (y :: ys)))
  end.

(** ** The remote endpoint, the object and the trace *)

(** The keyword arguments of [embeddings.create]. *)
Record request := {
  r_input : list pyval;
  r_model : string;
  r_kwargs : kwargs_t }.

(** [response.data]: one item per input, each with its [.embedding]. *)
Definition response : Type := list (list float).

(** An [OpenAI] or [AsyncOpenAI] client, as configured by the constructor. *)
Record client := {
  c_api_key : pyval;
  c_options : kwargs_t }.

(** What a processed embedding is: the list of floats itself, or the [bytes]
    object that packs it with the given datatype. *)
Inductive embedding : Type :=
| Floats (v : list float)
| Buffer (dtype : pyval) (itemsize : nat) (v : list float).

Inductive event : Type :=
| EvAttempt (attempt_number : nat)   (* the retry wrapper runs the body *)
| EvSleep (high : Z)                 (* it sleeps at most [high] seconds *)
| EvCreate (req : request)           (* [embeddings.create] is called *)
| EvWarn (argument : string)         (* a deprecation warning is issued *)
| EvGetenv (name : string).          (* [os.getenv] is called *)

(** The fields of [self]. *)
Record vectorizer := {
  model : string;
  dtype : string;
  dims : option nat;
  _client : option client;
  _aclient : option client }.

Record state := {
  self : vectorizer;
  log : list event }.

Definition add_event (e : event) (st : state) : state :=
  {| self := self st; log := log st ++ [e] |}.

Definition set_self (v : vectorizer) (st : state) : state :=
  {| self := v; log := log st |}.

(** What the code cannot see: the remote service (its answer may depend on
    the client, on everything that happened before and on the request), the
    installed packages, the process environment, and the datatypes that the
    buffer helper accepts with the width of one element of each. *)
Record environment := {
  remote_create : client -> list event -> request -> res response;
  openai_installed : bool;
  environ : gmap string string;
  dtype_itemsize : pyval -> option nat }.

(** ** The monad of synchronous code *)

Definition M (A : Type) : Type := state -> res A * state.

Definition ret {A} (a : A) : M A := fun st => (Ok a, st).
Definition raise {A} (e : exn) : M A := fun st => (Err e, st).
Definition bind {A B} (m : M A) (f : A -> M B) : M B :=
  fun st => match m st with
            | (Ok a, st') => f a st'
            | (Err e, st') => (Err e, st')
            end.
Definition lift {A} (r : res A) : M A := fun st => (r, st).
Definition emit (e : event) : M unit := fun st => (Ok tt, add_event e st).
Definition get_self : M vectorizer := fun st => (Ok (self st), st).

Declare Scope py_scope.
Delimit Scope py_scope with py.
Notation "x <- m ;; k" := (bind m (fun x => k))
  (at level 100, m at next level, right associativity) : py_scope.
Notation "m ;;; k" := (bind m (fun _ => k))
  (at level 100, right associativity) : py_scope.
Open Scope py_scope.

(** ** Projections of the trace *)

Definition attempts_of (l : list event) : list nat :=
  omap (fun e => match e with EvAttempt n => Some n | _ => None end) l.

Definition sleeps_of (l : list event) : list Z :=
  omap (fun e => match e with EvSleep h => Some h | _ => None end) l.

Definition creates_of (l : list event) : list request :=
  omap (fun e => match e with EvCreate r => Some r | _ => None end) l.

Definition getenvs_of (l : list event) : list string :=
  omap (fun e => match e with EvGetenv n => Some n | _ => None end) l.

(** ** Collaborators that live outside this file *)

(** Consecutive slices [seq[pos : pos + size]] for [pos] = 0, [size],
    2*[size], ... below [len(seq)]. *)
Fixpoint chunks {A} (fuel size : nat) (seq : list A) : list (list A) :=
  match fuel with
  | 0 => []
  | S fuel' =>
      match seq with
      | [] => []
      | _ => take size seq :: chunks fuel' size (drop size seq)
      end
  end.

(** [[preprocess(chunk) for chunk in batch]], or the batch itself when no
    callable is given. *)
Definition preprocess_batch (preprocess : option (pyval -> res pyval))
    (batch : list pyval) : res (list pyval) :=
  match preprocess with
  | Some f => res_map f batch
  | None => Ok batch
  end.

(** Modelled from the spec: [BaseVectorizer.batchify] is defined in the base
    class, outside this file.  The spec has the entry points batch long
    lists: the input is cut into consecutive batches of at most [size]
    texts, in order, and the optional [preprocess] callable is applied to
    each text of a batch (as [embed] applies it to its single text).  It is a
    generator, so a batch is produced, and its preprocessing may raise,
    only when the loop asks for it: each batch is a [res].  The spec is
    silent on a [size] that is not positive; the model yields no batch there
    and every statement below about batching assumes [0 < size]. *)
Definition batchify (seq : list pyval) (size : Z)
    (preprocess : option (pyval -> res pyval)) : list (res (list pyval)) :=
  if (size <=? 0)%Z then []
  else map (preprocess_batch preprocess)
           (chunks (length seq) (Z.to_nat size) seq).

(** Modelled from the spec: the decorator [deprecated_argument] is defined in
    [redisvl.utils.utils], outside this file.  The spec calls it the
    deprecation-warning decorator: it warns when the named argument is
    passed and then calls the function unchanged. *)
Definition deprecated_argument {A} (argument : string) (kwargs : kwargs_t)
    (fn : M A) : M A :=
  match kwargs !! argument with
  | Some _ => emit (EvWarn argument) ;;; fn
  | None => fn
  end.

(** [len(e)]: the number of floats of a list, of bytes of a buffer. *)
Definition py_len (e : embedding) : nat :=
  match e with
  | Floats v => length v
  | Buffer _ itemsize v => itemsize * length v
  end.

(** ** tenacity's retry decorator *)

(** [stop_after_attempt(6)] *)
Definition stop_after_attempt : nat := 6.

(** The upper end of [wait_random_exponential(min=1, max=60)] after the
    attempt [attempt_number]: [max(max(0, min), min(2 ** (n - 1), max))].
    The sleep itself is drawn at random below it. *)
Definition wait_high (attempt_number : nat) : Z :=
  Z.max (Z.max 0 1) (Z.min (1 * 2 ^ (Z.of_nat attempt_number - 1)) 60).

(** [retry=retry_if_not_exception_type(TypeError)] *)
Definition retry_if_not_TypeError (e : exn) : bool := negb (is_TypeError e).

(** The loop of [Retrying.__call__], started at attempt [attempt_number] with
    [retries_left = stop_after_attempt - attempt_number] more attempts
    allowed after this one: run the function; return its result; re-raise
    an exception that the retry predicate rejects; raise [RetryError] when
    the stop condition holds; otherwise sleep and try again. *)
Fixpoint retry_loop {A} (retries_left attempt_number : nat) (fn : M A) : M A :=
  fun st =>
    match fn (add_event (EvAttempt attempt_number) st) with
    | (Ok a, st') => (Ok a, st')
    | (Err e, st') =>
        if retry_if_not_TypeError e then
          match retries_left with
          | 0 => (Err (RetryError e), st')
          | S r =>
              retry_loop r (S attempt_number) fn
                (add_event (EvSleep (wait_high attempt_number)) st')
          end
        else (Err e, st')
    end.

Definition retry {A} (fn : M A) : M A :=
  retry_loop (stop_after_attempt - 1) 1 fn.

(** ** The synchronous entry points *)

Section Vectorizer.

Variable E : environment.

(** Modelled from the spec: [BaseVectorizer._process_embedding] and the
    buffer helper it calls are defined outside this file.  The spec has the
    raw numeric response converted into the requested output form: the
    float sequence itself, or, with [as_buffer], a packed byte buffer of
    fixed-width elements of the datatype.  A datatype that the helper does
    not know is a [ValueError]. *)
Definition _process_embedding (emb : list float) (as_buffer : bool)
    (dtype : pyval) : res embedding :=
  if as_buffer then
    match dtype_itemsize E dtype with
    | Some w => Ok (Buffer dtype w emb)
    | None => Err (ValueError "Invalid data type")
    end
  else Ok (Floats emb).

(** [self._client], an [AttributeError] while the attribute is not set. *)
Definition get_client : M client :=
  fun st => match _client (self st) with
            | Some c => (Ok c, st)
            | None => (Err (AttributeError "_client"), st)
            end.

(** [client.embeddings.create(input=..., model=..., **kwargs)] *)
Definition create (c : client) (req : request) : M response :=
  fun st => (remote_create E c (log st) req, add_event (EvCreate req) st).

(** [kwargs.pop("dtype", self.dtype)]: the value and the remaining
    keyword arguments. *)
Definition pop_dtype (kwargs : kwargs_t) (default : string)
    : pyval * kwargs_t :=
  (match kwargs !! "dtype" with Some v => v | None => PStr default end,
   delete "dtype" kwargs).

(** The [for batch in self.batchify(...)] loop of [embed_many]. *)
Fixpoint embed_many_loop (batches : list (res (list pyval)))
    (as_buffer : bool) (dtype : pyval) (kwargs : kwargs_t)
    (embeddings : list embedding) : M (list embedding) :=
  match batches with
  | [] => ret embeddings
  | b :: rest =>
      batch <- lift b ;;
      c <- get_client ;;
      s <- get_self ;;
      response <- create c {| r_input := batch; r_model := model s;
                              r_kwargs := kwargs |} ;;
      new <- lift (res_map (fun r => _process_embedding r as_buffer dtype)
                           response) ;;
      embed_many_loop rest as_buffer dtype kwargs (embeddings ++ new)
  end.

(** The body of [embed_many], under its decorators. *)
Definition embed_many_body (texts : pyval)
    (preprocess : option (pyval -> res pyval)) (batch_size : Z)
    (as_buffer : bool) (kwargs : kwargs_t) : M (list embedding) :=
  match texts with
  | PList items =>
      if match items with
         | first :: _ => negb (isinstance_str first)
         | [] => false
         end
      then raise (TypeError "Must pass in a list of str values to embed.")
      else
        s <- get_self ;;
        let '(dtype, kwargs) := pop_dtype kwargs (dtype s) in
        embed_many_loop (batchify items batch_size preprocess)
                        as_buffer dtype kwargs []
  | _ => raise (TypeError "Must pass in a list of str values to embed.")
  end.

Definition embed_many (texts : pyval)
    (preprocess : option (pyval -> res pyval)) (batch_size : Z)
    (as_buffer : bool) (kwargs : kwargs_t) : M (list embedding) :=
  retry (deprecated_argument "dtype" kwargs
           (embed_many_body texts preprocess batch_size as_buffer kwargs)).

(** The body of [embed], under its decorators. *)
Definition embed_body (text : pyval)
    (preprocess : option (pyval -> res pyval)) (as_buffer : bool)
    (kwargs : kwargs_t) : M embedding :=
  if negb (isinstance_str text) then
    raise (TypeError "Must pass in a str value to embed.")
  else
    text <- match preprocess with
            | Some f => lift (f text)
            | None => ret text
            end ;;
    s <- get_self ;;
    let '(dtype, kwargs) := pop_dtype kwargs (dtype s) in
    c <- get_client ;;
    s <- get_self ;;
    result <- create c {| r_input := [text]; r_model := model s;
                          r_kwargs := kwargs |} ;;
    match result with
    | [] => raise (IndexError "list index out of range")
    | r :: _ => lift (_process_embedding r as_buffer dtype)
    end.

Definition embed (text : pyval) (preprocess : option (pyval -> res pyval))
    (as_buffer : bool) (kwargs : kwargs_t) : M embedding :=
  retry (deprecated_argument "dtype" kwargs
           (embed_body text preprocess as_buffer kwargs)).

(** ** Coroutines and the event loop *)

(** What an [async def] body does until it finishes: it reads the object,
    leaves an event in the trace, or suspends on an [await] of the remote
    call or of [asyncio.sleep] and goes on with the answer. *)
Inductive coro (A : Type) : Type :=
| CDone (r : res A)
| CSelf (k : vectorizer -> coro A)
| CEmit (e : event) (k : coro A)
| CAwaitCreate (c : client) (req : request) (k : res response -> coro A)
| CAwaitSleep (high : Z) (k : coro A).
Arguments CDone {A} r.
Arguments CSelf {A} k.
Arguments CEmit {A} e k.
Arguments CAwaitCreate {A} c req k.
Arguments CAwaitSleep {A} high k.

(** Run [c], then go on with its result or its exception. *)
Fixpoint co_then {A B} (c : coro A) (f : res A -> coro B) : coro B :=
  match c with
  | CDone r => f r
  | CSelf k => CSelf (fun v => co_then (k v) f)
  | CEmit e k => CEmit e (co_then k f)
  | CAwaitCreate cl req k => CAwaitCreate cl req (fun r => co_then (k r) f)
  | CAwaitSleep h k => CAwaitSleep h (co_then k f)
  end.

Definition co_bind {A B} (c : coro A) (f : A -> coro B) : coro B :=
  co_then c (fun r => match r with Ok a => f a | Err e => CDone (Err e) end).

Definition co_ret {A} (a : A) : coro A := CDone (Ok a).
Definition co_raise {A} (e : exn) : coro A := CDone (Err e).
Definition co_lift {A} (r : res A) : coro A := CDone r.

Notation "x <~ m ;; k" := (co_bind m (fun x => k))
  (at level 100, m at next level, right associativity) : py_scope.

(** The event loop drives one coroutine to its end; an awaited remote call
    is answered by the service, an awaited sleep elapses. *)
Fixpoint run_until_complete {A} (c : coro A) : M A :=
  fun st =>
    match c with
    | CDone r => (r, st)
    | CSelf k => run_until_complete (k (self st)) st
    | CEmit e k => run_until_complete k (add_event e st)
    | CAwaitCreate cl req k =>
        run_until_complete (k (remote_create E cl (log st) req))
                           (add_event (EvCreate req) st)
    | CAwaitSleep h k => run_until_complete k (add_event (EvSleep h) st)
    end.

(** The loop of [AsyncRetrying.__call__]: that of [retry_loop], with the
    function and the sleep awaited. *)
Fixpoint aretry_loop {A} (retries_left attempt_number : nat) (fn : coro A)
    : coro A :=
  CEmit (EvAttempt attempt_number)
    (co_then fn (fun r =>
       match r with
       | Ok a => CDone (Ok a)
       | Err e =>
           if retry_if_not_TypeError e then
             match retries_left with
             | 0 => CDone (Err (RetryError e))
             | S r =>
                 CAwaitSleep (wait_high attempt_number)
                   (aretry_loop r (S attempt_number) fn)
             end
           else CDone (Err e)
       end)).

Definition aretry {A} (fn : coro A) : coro A :=
  aretry_loop (stop_after_attempt - 1) 1 fn.

(** [deprecated_argument] around a coroutine function. *)
Definition adeprecated_argument {A} (argument : string) (kwargs : kwargs_t)
    (fn : coro A) : coro A :=
  match kwargs !! argument with
  | Some _ => CEmit (EvWarn argument) fn
  | None => fn
  end.

(** ** The asynchronous entry points *)

(** [self._aclient], an [AttributeError] while the attribute is not set. *)
Definition get_aclient : coro client :=
  CSelf (fun s => match _aclient s with
                  | Some c => CDone (Ok c)
                  | None => CDone (Err (AttributeError "_aclient"))
                  end).

(** The [for batch in self.batchify(...)] loop of [aembed_many]. *)
Fixpoint aembed_many_loop (batches : list (res (list pyval)))
    (as_buffer : bool) (dtype : pyval) (kwargs : kwargs_t)
    (embeddings : list embedding) : coro (list embedding) :=
  match batches with
  | [] => co_ret embeddings
  | b :: rest =>
      batch <~ co_lift b ;;
      c <~ get_aclient ;;
      s <~ CSelf co_ret ;;
      response <~ CAwaitCreate c {| r_input := batch; r_model := model s;
                                    r_kwargs := kwargs |} CDone ;;
      new <~ co_lift (res_map (fun r => _process_embedding r as_buffer dtype)
                              response) ;;
      aembed_many_loop rest as_buffer dtype kwargs (embeddings ++ new)
  end.

(** The body of [aembed_many], under its decorators. *)
Definition aembed_many_body (texts : pyval)
    (preprocess : option (pyval -> res pyval)) (batch_size : Z)
    (as_buffer : bool) (kwargs : kwargs_t) : coro (list embedding) :=
  match texts with
  | PList items =>
      if match items with
         | first :: _ => negb (isinstance_str first)
         | [] => false
         end
      then co_raise (TypeError "Must pass in a list of str values to embed.")
      else
        s <~ CSelf co_ret ;;
        let '(dtype, kwargs) := pop_dtype kwargs (dtype s) in
        aembed_many_loop (batchify items batch_size preprocess)
                         as_buffer dtype kwargs []
  | _ => co_raise (TypeError "Must pass in a list of str values to embed.")
  end.

Definition aembed_many (texts : pyval)
    (preprocess : option (pyval -> res pyval)) (batch_size : Z)
    (as_buffer : bool) (kwargs : kwargs_t) : coro (list embedding) :=
  aretry (adeprecated_argument "dtype" kwargs
            (aembed_many_body texts preprocess batch_size as_buffer kwargs)).

(** The body of [aembed], under its decorators. *)
Definition aembed_body (text : pyval)
    (preprocess : option (pyval -> res pyval)) (as_buffer : bool)
    (kwargs : kwargs_t) : coro embedding :=
  if negb (isinstance_str text) then
    co_raise (TypeError "Must pass in a str value to embed.")
  else
    text <~ match preprocess with
            | Some f => co_lift (f text)
            | None => co_ret text
            end ;;
    s <~ CSelf co_ret ;;
    let '(dtype, kwargs) := pop_dtype kwargs (dtype s) in
    c <~ get_aclient ;;
    s <~ CSelf co_ret ;;
    result <~ CAwaitCreate c {| r_input := [text]; r_model := model s;
                                r_kwargs := kwargs |} CDone ;;
    match result with
    | [] => co_raise (IndexError "list index out of range")
    | r :: _ => co_lift (_process_embedding r as_buffer dtype)
    end.

Definition aembed (text : pyval) (preprocess : option (pyval -> res pyval))
    (as_buffer : bool) (kwargs : kwargs_t) : coro embedding :=
  aretry (adeprecated_argument "dtype" kwargs
            (aembed_body text preprocess as_buffer kwargs)).

(** ** The constructor *)

(** Modelled from the spec: [BaseVectorizer.__init__] is defined in the base
    class, outside this file.  The spec has the base contract hold the shared
    [dtype] and [model] fields, and the constructor's documentation has an
    invalid [dtype] rejected with a [ValueError].  The other fields of the
    new object are not set yet. *)
Definition base_init (model dtype : string) : M unit :=
  fun st =>
    match dtype_itemsize E (PStr dtype) with
    | Some _ =>
        (Ok tt, set_self {| model := model; dtype := dtype; dims := None;
                            _client := None; _aclient := None |} st)
    | None => (Err (ValueError "Invalid data type"), st)
    end.

(** [os.getenv(name)] *)
Definition getenv (name : string) : M pyval :=
  emit (EvGetenv name) ;;;
  ret (match environ E !! name with Some v => PStr v | None => PNone end).

(** [api_config.pop("api_key")]: the value and the remaining entries, a
    [KeyError] when the key is absent. *)
Definition pop_api_key (api_config : kwargs_t) : res (pyval * kwargs_t) :=
  match api_config !! "api_key" with
  | Some v => Ok (v, delete "api_key" api_config)
  | None => Err (KeyError "'api_key'")
  end.

(** The call [OpenAI(api_key=api_key, **api_config, **kwargs)] (and the same
    for [AsyncOpenAI]): a keyword given twice is a [TypeError] of the call
    itself; the client keeps what it is given. *)
Definition new_client (api_key : pyval) (api_config kwargs : kwargs_t)
    : res client :=
  if bool_decide (dom api_config ## dom kwargs)
     && bool_decide ("api_key" ∉ dom api_config ∪ dom kwargs)
  then Ok {| c_api_key := api_key; c_options := api_config ∪ kwargs |}
  else Err (TypeError "got multiple values for keyword argument").

Definition set_client (c : client) : M unit :=
  fun st =>
    let s := self st in
    (Ok tt, set_self {| model := model s; dtype := dtype s; dims := dims s;
                        _client := Some c; _aclient := _aclient s |} st).

Definition set_aclient (c : client) : M unit :=
  fun st =>
    let s := self st in
    (Ok tt, set_self {| model := model s; dtype := dtype s; dims := dims s;
                        _client := _client s; _aclient := Some c |} st).

Definition set_dims (d : nat) : M unit :=
  fun st =>
    let s := self st in
    (Ok tt, set_self {| model := model s; dtype := dtype s; dims := Some d;
                        _client := _client s; _aclient := _aclient s |} st).

Definition _initialize_clients (api_config : option kwargs_t)
    (kwargs : kwargs_t) : M unit :=
  let api_config := match api_config with None => ∅ | Some d => d end in
  if negb (openai_installed E) then
    raise (ImportError "OpenAI vectorizer requires the openai library.")
  else
    popped <-
        (if dict_truthy api_config then lift (pop_api_key api_config)
         else (k <- getenv "OPENAI_API_KEY" ;; ret (k, api_config))) ;;
    let '(api_key, api_config) := popped in
    if negb (truthy api_key) then
      raise (ValueError "OpenAI API key is required.")
    else
      c <- lift (new_client api_key api_config kwargs) ;;
      set_client c ;;;
      ac <- lift (new_client api_key api_config kwargs) ;;
      set_aclient ac.

Definition _set_model_dims : M nat :=
  fun st =>
    match embed (PStr "dimension check") None false ∅ st with
    | (Ok embedding, st') => (Ok (py_len embedding), st')
    | (Err e, st') =>
        if is_KeyError_or_IndexError e then
          (Err (ValueError ("Unexpected response from the OpenAI API: "
                            +:+ exn_str e)), st')
        else if is_Exception e then
          (Err (ValueError ("Error setting embedding model dimensions: "
                            +:+ exn_str e)), st')
        else (Err e, st')
    end.

Definition __init__ (model : string) (api_config : option kwargs_t)
    (dtype : string) (kwargs : kwargs_t) : M unit :=
  base_init model dtype ;;;
  _initialize_clients api_config kwargs ;;;
  d <- _set_model_dims ;;
  set_dims d.

End Vectorizer.

Arguments CDone {A} r.
Arguments CSelf {A} k.
Arguments CEmit {A} e k.
Arguments CAwaitCreate {A} c req k.
Arguments CAwaitSleep {A} high k.

(** ** Vocabulary of the statements *)

(** The events that a decorated body leaves in the trace: remote calls and
    deprecation warnings, never an attempt or a sleep of the retry loop. *)
Definition is_call_event (e : event) : Prop :=
  match e with EvCreate _ | EvWarn _ => True | _ => False end.

(** The events that a call of an entry point leaves in the trace: anything
    but a look at the process environment. *)
Definition is_embed_event (e : event) : Prop :=
  match e with EvGetenv _ => False | _ => True end.

(** [m] leaves the object alone and only appends events that satisfy [P]. *)
Definition extends (P : event -> Prop) {A} (m : M A) : Prop :=
  forall st, self (m st).2 = self st /\
             exists evs, log (m st).2 = log st ++ evs /\ Forall P evs.

(** [preprocess] never raises and computes [g]. *)
Definition preprocess_as (preprocess : option (pyval -> res pyval))
    (g : pyval -> pyval) : Prop :=
  match preprocess with
  | None => forall x, g x = x
  | Some f => forall x, f x = Ok (g x)
  end.

(** The request that [embed_many] sends for one batch. *)
Definition batch_request (mdl : string) (kwargs : kwargs_t)
    (batch : list pyval) : request :=
  {| r_input := batch; r_model := mdl; r_kwargs := kwargs |}.

(** What [embed_many] refuses: not a list, or a list whose first element is
    not a string. *)
Definition rejected_texts (texts : pyval) : bool :=
  match texts with
  | PList (first :: _) => negb (isinstance_str first)
  | PList [] => false
  | _ => true
  end.

(** The request of the dimension probe of the constructor. *)
Definition probe_request (mdl : string) : request :=
  {| r_input := [PStr "dimension check"]; r_model := mdl; r_kwargs := ∅ |}.

(** The state after the deprecation warning of a call, if it issues one. *)
Definition warned (kwargs : kwargs_t) (st : state) : state :=
  match kwargs !! "dtype" with
  | Some _ => add_event (EvWarn "dtype") st
  | None => st
  end.

(** The object is constructed: both clients are set, and configured alike. *)
Definition constructed (c : client) (st : state) : Prop :=
  _client (self st) = Some c /\ _aclient (self st) = Some c.

(** The requested output form exists: a list of floats always does, a buffer
    needs a datatype that the buffer helper accepts. *)
Definition output_form_ok (E : environment) (as_buffer : bool)
    (dtype : pyval) : Prop :=
  as_buffer = true -> is_Some (dtype_itemsize E dtype).

(** The service answers every request, with one vector per input, in order,
    each related by [R] to its input. *)
Definition remote_answers (E : environment)
    (R : pyval -> list float -> Prop) : Prop :=
  forall c lg req,
    exists vs, remote_create E c lg req = Ok vs /\ Forall2 R (r_input req) vs.

(** From [st] to the outcome [out], the object is left alone and every new
    remote call sends a request that satisfies [Q]. *)
Definition sent (Q : request -> Prop) {A} (st : state)
    (out : res A * state) : Prop :=
  self out.2 = self st /\
  exists reqs, creates_of (log out.2) = creates_of (log st) ++ reqs /\
               Forall Q reqs.

(** [m] leaves the object alone, and every remote call it makes sends a
    request that satisfies [Q] for the object. *)
Definition sends (Q : vectorizer -> request -> Prop) {A} (m : M A) : Prop :=
  forall st, sent (Q (self st)) st (m st).

(** The request of a call with the keyword arguments [kwargs]: the model of
    the object, and the keyword arguments without [dtype]. *)
Definition request_of_call (kwargs : kwargs_t) (s : vectorizer)
    (r : request) : Prop :=
  r_model r = model s /\ r_kwargs r = delete "dtype" kwargs.

(** The configuration dictionary that [_initialize_clients] works on. *)
Definition config_of (api_config : option kwargs_t) : kwargs_t :=
  match api_config with Some d => d | None => ∅ end.

(** ** Example environments *)

Module Examples.

Definition v3 : list float :=
  [S754_zero false; S754_zero false; S754_zero false].

(** The element widths of the floating-point datatypes, in bytes. *)
Definition itemsize (d : pyval) : option nat :=
  match d with
  | PStr "float16" => Some 2
  | PStr "float32" => Some 4
  | PStr "float64" => Some 8
  | _ => None
  end.

(** A service that answers every request with one vector of dimension 3
    per input. *)
Definition env_up : environment := {|
  remote_create := fun _ _ req => Ok (map (fun _ => v3) (r_input req));
  openai_installed := true;
  environ := ∅;
  dtype_itemsize := itemsize |}.

(** A service that cannot be reached. *)
Definition env_down : environment := {|
  remote_create := fun _ _ _ => Err (OtherError "APIConnectionError"
                                                "Connection error.");
  openai_installed := true;
  environ := ∅;
  dtype_itemsize := itemsize |}.

(** A service that answers with an empty [data] list. *)
Definition env_empty : environment := {|
  remote_create := fun _ _ _ => Ok [];
  openai_installed := true;
  environ := ∅;
  dtype_itemsize := itemsize |}.

Definition a_client : client :=
  {| c_api_key := PStr "sk-test"; c_options := ∅ |}.

(** The object before its constructor has run. *)
Definition blank : state :=
  {| self := {| model := ""; dtype := ""; dims := None;
                _client := None; _aclient := None |};
     log := [] |}.

(** A constructed vectorizer of dimension 3, with an empty trace. *)
Definition ready : state :=
  {| self := {| model := "text-embedding-ada-002"; dtype := "float32";
                dims := Some 3;
                _client := Some a_client; _aclient := Some a_client |};
     log := [] |}.

End Examples.

Module Scenarios.

(** A service whose first attempt fails: it cannot be reached until the
    caller has slept once, and answers like [Examples.env_up] afterwards. *)
Definition env_flaky : environment := {|
  remote_create := fun _ lg req =>
    match sleeps_of lg with
    | [] => Err (OtherError "APIConnectionError" "Connection error.")
    | _ => Ok (map (fun _ => Examples.v3) (r_input req))
    end;
  openai_installed := true;
  environ := ∅;
  dtype_itemsize := Examples.itemsize |}.

(** The key is in the process environment. *)
Definition env_key : environment := {|
  remote_create := fun _ _ req => Ok (map (fun _ => Examples.v3) (r_input req));
  openai_installed := true;
  environ := {[ "OPENAI_API_KEY" := "sk-env" ]};
  dtype_itemsize := Examples.itemsize |}.

(** The [openai] package is not installed. *)
Definition env_no_openai : environment := {|
  remote_create := fun _ _ req => Ok (map (fun _ => Examples.v3) (r_input req));
  openai_installed := false;
  environ := {[ "OPENAI_API_KEY" := "sk-env" ]};
  dtype_itemsize := Examples.itemsize |}.

End Scenarios.

(** ** The trace *)

Lemma attempts_of_app l1 l2 :
  attempts_of (l1 ++ l2) = attempts_of l1 ++ attempts_of l2.
Proof. apply omap_app. Qed.

Lemma sleeps_of_app l1 l2 : sleeps_of (l1 ++ l2) = sleeps_of l1 ++ sleeps_of l2.
Proof. apply omap_app. Qed.

Lemma creates_of_app l1 l2 :
  creates_of (l1 ++ l2) = creates_of l1 ++ creates_of l2.
Proof. apply omap_app. Qed.

Lemma getenvs_of_app l1 l2 :
  getenvs_of (l1 ++ l2) = getenvs_of l1 ++ getenvs_of l2.
Proof. apply omap_app. Qed.

Lemma call_events_no_attempt evs :
  Forall is_call_event evs -> attempts_of evs = [] /\ sleeps_of evs = [].
Proof.
  induction 1 as [|e evs He _ [IHa IHs]]; [done|].
  destruct e; simpl in He; try contradiction; by split.
Qed.

(** ** Frame rules of the monad *)

Lemma extends_ret P {A} (a : A) : extends P (ret a).
Proof. intros st; split; [done|]. exists []. by rewrite app_nil_r. Qed.

Lemma extends_raise P {A} e : extends P (@raise A e).
Proof. intros st; split; [done|]. exists []. by rewrite app_nil_r. Qed.

Lemma extends_lift P {A} (r : res A) : extends P (lift r).
Proof. intros st; split; [done|]. exists []. by rewrite app_nil_r. Qed.

Lemma extends_get_self P : extends P get_self.
Proof. intros st; split; [done|]. exists []. by rewrite app_nil_r. Qed.

Lemma extends_emit (P : event -> Prop) e : P e -> extends P (emit e).
Proof. intros He st; split; [done|]. exists [e]. split; [done|]. by constructor. Qed.

Lemma extends_bind P {A B} (m : M A) (f : A -> M B) :
  extends P m -> (forall a, extends P (f a)) -> extends P (bind m f).
Proof.
  intros Hm Hf st. unfold bind.
  destruct (Hm st) as [Hs (evs & Hl & Hev)].
  destruct (m st) as [[a|e] st1]; simpl in *.
  - destruct (Hf a st1) as [Hs' (evs' & Hl' & Hev')].
    split; [congruence|]. exists (evs ++ evs').
    rewrite Hl', Hl, app_assoc. split; [done|]. by apply Forall_app.
  - split; [done|]. by exists evs.
Qed.

Lemma extends_get_client P : extends P get_client.
Proof.
  intros st. unfold get_client.
  destruct (_client (self st)); (split; [done|]); exists []; by rewrite app_nil_r.
Qed.

Lemma extends_create E c req : extends is_call_event (create E c req).
Proof.
  intros st; split; [done|]. exists [EvCreate req]. split; [done|].
  by constructor.
Qed.

Lemma extends_deprecated_argument {A} arg kw (fn : M A) :
  extends is_call_event fn ->
  extends is_call_event (deprecated_argument arg kw fn).
Proof.
  intros Hfn. unfold deprecated_argument. destruct (kw !! arg); [|done].
  apply extends_bind; [by apply extends_emit | done].
Qed.

Lemma extends_embed_many_loop E batches ab dt kw acc :
  extends is_call_event (embed_many_loop E batches ab dt kw acc).
Proof.
  revert acc. induction batches as [|b rest IH]; intros acc; simpl.
  - apply extends_ret.
  - apply extends_bind; [apply extends_lift|]. intros batch.
    apply extends_bind; [apply extends_get_client|]. intros c.
    apply extends_bind; [apply extends_get_self|]. intros s.
    apply extends_bind; [apply extends_create|]. intros resp.
    apply extends_bind; [apply extends_lift|]. intros new. apply IH.
Qed.

Lemma extends_embed_many_body E texts pre bs ab kw :
  extends is_call_event (embed_many_body E texts pre bs ab kw).
Proof.
  unfold embed_many_body.
  destruct texts; try apply extends_raise.
  match goal with |- context [if ?c then _ else _] => destruct c end;
    [apply extends_raise|].
  apply extends_bind; [apply extends_get_self|]. intros s.
  destruct (pop_dtype kw (dtype s)). apply extends_embed_many_loop.
Qed.

Lemma extends_embed_body E text pre ab kw :
  extends is_call_event (embed_body E text pre ab kw).
Proof.
  unfold embed_body. destruct (negb (isinstance_str text)); [apply extends_raise|].
  apply extends_bind.
  { destruct pre; [apply extends_lift | apply extends_ret]. }
  intros t. apply extends_bind; [apply extends_get_self|]. intros s.
  destruct (pop_dtype kw (dtype s)).
  apply extends_bind; [apply extends_get_client|]. intros c.
  apply extends_bind; [apply extends_get_self|]. intros s'.
  apply extends_bind; [apply extends_create|]. intros [|r ?];
    [apply extends_raise | apply extends_lift].
Qed.

(** ** The retry loop *)

Lemma retry_loop_unfold {A} k n (fn : M A) st :
  retry_loop k n fn st =
  match fn (add_event (EvAttempt n) st) with
  | (Ok a, st') => (Ok a, st')
  | (Err e, st') =>
      if retry_if_not_TypeError e then
        match k with
        | 0 => (Err (RetryError e), st')
        | S r => retry_loop r (S n) fn (add_event (EvSleep (wait_high n)) st')
        end
      else (Err e, st')
  end.
Proof. by destruct k. Qed.

(** A [TypeError] of the function leaves the loop at once. *)
Lemma retry_loop_TypeError {A} k n (fn : M A) st e st' :
  fn (add_event (EvAttempt n) st) = (Err e, st') ->
  is_TypeError e = true ->
  retry_loop k n fn st = (Err e, st').
Proof.
  intros Hfn He. rewrite retry_loop_unfold, Hfn.
  unfold retry_if_not_TypeError. by rewrite He.
Qed.

(** A result of the function leaves the loop at once. *)
Lemma retry_loop_Ok {A} k n (fn : M A) st a st' :
  fn (add_event (EvAttempt n) st) = (Ok a, st') ->
  retry_loop k n fn st = (Ok a, st').
Proof. intros Hfn. by rewrite retry_loop_unfold, Hfn. Qed.

Lemma call_event_is_embed_event e : is_call_event e -> is_embed_event e.
Proof. by destruct e. Qed.

Lemma extends_retry_loop {A} (fn : M A) k n :
  extends is_call_event fn -> extends is_embed_event (retry_loop k n fn).
Proof.
  intros Hfn. revert n. induction k as [|k IH]; intros n st;
    rewrite retry_loop_unfold;
    destruct (Hfn (add_event (EvAttempt n) st)) as [Hs (evs & Hl & Hev)];
    pose proof (Forall_impl _ _ _ Hev call_event_is_embed_event) as Hev';
    destruct (fn (add_event (EvAttempt n) st)) as [[a|e] st1]; simpl in *.
  1,3: split; [done|]; exists (EvAttempt n :: evs);
       rewrite Hl, <- app_assoc; split; [done | by constructor].
  - destruct (retry_if_not_TypeError e); simpl;
      (split; [done|]); exists (EvAttempt n :: evs);
      rewrite Hl, <- app_assoc; (split; [done | by constructor]).
  - destruct (retry_if_not_TypeError e); simpl.
    + destruct (IH (S n) (add_event (EvSleep (wait_high n)) st1))
        as [Hs' (evs' & Hl' & Hev'')]. simpl in *.
      split; [congruence|].
      exists (EvAttempt n :: evs ++ EvSleep (wait_high n) :: evs').
      rewrite Hl', Hl. split; [by rewrite <- !app_assoc|].
      constructor; [done|]. apply Forall_app. split; [done|].
      by constructor.
    + split; [done|]. exists (EvAttempt n :: evs).
      rewrite Hl, <- app_assoc. split; [done | by constructor].
Qed.

(** A result of the loop is the result of one run of the function. *)
Lemma retry_loop_Ok_inv {A} (fn : M A) k n st a st' :
  extends is_call_event fn ->
  retry_loop k n fn st = (Ok a, st') ->
  exists s, fn s = (Ok a, st') /\ self s = self st /\
            exists evs, log s = log st ++ evs.
Proof.
  intros Hfn. revert n st. induction k as [|k IH]; intros n st;
    rewrite retry_loop_unfold;
    destruct (Hfn (add_event (EvAttempt n) st)) as [Hs (evs & Hl & _)];
    destruct (fn (add_event (EvAttempt n) st)) as [[a'|e] st1] eqn:Hrun;
    simpl in *.
  1,3: intros [= -> ->]; exists (add_event (EvAttempt n) st);
       split; [done|]; split; [done|]; by eexists.
  - by destruct (retry_if_not_TypeError e).
  - destruct (retry_if_not_TypeError e); [|done]. intros Hloop.
    destruct (IH _ _ Hloop) as (s & Hfs & Hss & evs' & Hls).
    exists s. split; [done|]. split; [simpl in Hss; congruence|].
    exists ([EvAttempt n] ++ evs ++ [EvSleep (wait_high n)] ++ evs').
    rewrite Hls. simpl. rewrite Hl. by rewrite <- !app_assoc.
Qed.

(** An exception of the loop is a [TypeError] of the function or a
    [RetryError]. *)
Lemma retry_loop_Err_form {A} (fn : M A) k n st e st' :
  retry_loop k n fn st = (Err e, st') ->
  is_TypeError e = true \/ exists e', e = RetryError e'.
Proof.
  revert n st. induction k as [|k IH]; intros n st;
    rewrite retry_loop_unfold;
    destruct (fn (add_event (EvAttempt n) st)) as [[a'|e0] st1]; try done;
    unfold retry_if_not_TypeError;
    destruct (is_TypeError e0) eqn:He0; simpl.
  1,3: intros [= <- <-]; by left.
  - intros [= <- <-]. right. by eexists.
  - apply IH.
Qed.

(** When the function fails on every run with something else than a
    [TypeError], the loop started with [k] retries left runs it [S k] times,
    sleeps between two runs, and ends with a [RetryError]. *)
Lemma retry_loop_exhaust {A} (fn : M A) :
  extends is_call_event fn ->
  (forall st, exists e, (fn st).1 = Err e /\ is_TypeError e = false) ->
  forall k n st,
    exists e, (retry_loop k n fn st).1 = Err (RetryError e) /\
      is_TypeError e = false /\
      attempts_of (log (retry_loop k n fn st).2)
        = attempts_of (log st) ++ seq n (S k) /\
      sleeps_of (log (retry_loop k n fn st).2)
        = sleeps_of (log st) ++ map wait_high (seq n k).
Proof.
  intros Hext Hfail. induction k as [|k IH]; intros n st;
    rewrite retry_loop_unfold;
    destruct (Hext (add_event (EvAttempt n) st)) as [_ (evs & Hl & Hev)];
    destruct (Hfail (add_event (EvAttempt n) st)) as (e & Hr & He);
    destruct (fn (add_event (EvAttempt n) st)) as [r st1]; simpl in *;
    subst r; unfold retry_if_not_TypeError; rewrite He; simpl;
    destruct (call_events_no_attempt _ Hev) as [Ha Hs].
  - exists e. rewrite Hl, !attempts_of_app, !sleeps_of_app, Ha, Hs. simpl.
    by rewrite !app_nil_r.
  - destruct (IH (S n) (add_event (EvSleep (wait_high n)) st1))
      as (e' & Hr' & He' & Hatt & Hsl).
    exists e'. split; [done|]. split; [done|].
    rewrite Hatt, Hsl. simpl. rewrite Hl.
    rewrite !attempts_of_app, !sleeps_of_app, Ha, Hs. simpl.
    rewrite !app_nil_r, <- !app_assoc. done.
Qed.

(** The loop only looks at what the function does on the states it reaches:
    two functions that agree on the states of an invariant that they
    maintain give the same loop there. *)
Lemma retry_loop_agree {A} (I : state -> Prop) (f g : M A) :
  (forall st, I st -> f st = g st) ->
  (forall st, I st -> I (g st).2) ->
  (forall e st, I st -> I (add_event e st)) ->
  forall k n st, I st -> retry_loop k n f st = retry_loop k n g st.
Proof.
  intros Hfg Hg Hadd. induction k as [|k IH]; intros n st HI;
    rewrite !retry_loop_unfold, Hfg by auto;
    pose proof (Hg (add_event (EvAttempt n) st) (Hadd _ _ HI)) as Hs;
    destruct (g (add_event (EvAttempt n) st)) as [[a|e] st1]; simpl in *;
    try done.
  destruct (retry_if_not_TypeError e); [|done].
  apply IH. by apply Hadd.
Qed.

(** ** The event loop *)

Lemma run_co_then E {A B} (c : coro A) (f : res A -> coro B) st :
  run_until_complete E (co_then c f) st =
  let '(r, st') := run_until_complete E c st in run_until_complete E (f r) st'.
Proof.
  revert st. induction c as [r|k IH|e k IH|cl req k IH|h k IH]; intros st;
    simpl; auto.
Qed.

Lemma run_co_bind E {A B} (c : coro A) (f : A -> coro B) st :
  run_until_complete E (co_bind c f) st =
  bind (run_until_complete E c) (fun a => run_until_complete E (f a)) st.
Proof.
  unfold co_bind, bind. rewrite run_co_then.
  by destruct (run_until_complete E c st) as [[a|e] st1].
Qed.

(** Driving the asynchronous retry loop is the synchronous retry loop around
    the driven function. *)
Lemma run_aretry_loop E {A} (fn : coro A) k n st :
  run_until_complete E (aretry_loop k n fn) st =
  retry_loop k n (run_until_complete E fn) st.
Proof.
  revert n st. induction k as [|k IH]; intros n st;
    rewrite retry_loop_unfold; simpl; rewrite run_co_then;
    destruct (run_until_complete E fn (add_event (EvAttempt n) st))
      as [[a|e] st1]; simpl; try done;
    destruct (retry_if_not_TypeError e); simpl; done.
Qed.

Lemma run_adeprecated_argument E {A} arg kw (fn : coro A) st :
  run_until_complete E (adeprecated_argument arg kw fn) st =
  deprecated_argument arg kw (run_until_complete E fn) st.
Proof.
  unfold adeprecated_argument, deprecated_argument. by destruct (kw !! arg).
Qed.

(** On a constructed object, whose two clients are configured alike, the
    coroutine bodies driven by the event loop are the synchronous bodies. *)
Lemma run_aembed_many_loop E c batches ab dt kw acc st :
  _client (self st) = Some c -> _aclient (self st) = Some c ->
  run_until_complete E (aembed_many_loop E batches ab dt kw acc) st =
  embed_many_loop E batches ab dt kw acc st.
Proof.
  revert acc st. induction batches as [|b rest IH]; intros acc st Hc Ha; [done|].
  simpl. unfold co_bind, bind, lift, get_client, get_self, create, co_lift,
    get_aclient. simpl.
  destruct b as [batch|e]; simpl; [|done]. rewrite Hc, Ha. simpl.
  destruct (remote_create E c (log st) _) as [resp|e]; simpl; [|done].
  destruct (res_map _ resp) as [new|e]; simpl; [|done].
  by apply IH.
Qed.

Lemma run_aembed_many_body E c texts pre bs ab kw st :
  _client (self st) = Some c -> _aclient (self st) = Some c ->
  run_until_complete E (aembed_many_body E texts pre bs ab kw) st =
  embed_many_body E texts pre bs ab kw st.
Proof.
  intros Hc Ha. unfold aembed_many_body, embed_many_body.
  destruct texts; try done.
  match goal with |- context [if ?c then _ else _] => destruct c end; [done|].
  simpl. unfold bind, get_self. destruct (pop_dtype kw (dtype (self st))).
  by apply run_aembed_many_loop with c.
Qed.

Lemma run_aembed_body E c text pre ab kw st :
  _client (self st) = Some c -> _aclient (self st) = Some c ->
  run_until_complete E (aembed_body E text pre ab kw) st =
  embed_body E text pre ab kw st.
Proof.
  intros Hc Ha. unfold aembed_body, embed_body.
  destruct (negb (isinstance_str text)); [done|].
  unfold co_bind, bind, lift, ret, get_client, get_self, create, co_lift,
    co_ret, get_aclient.
  destruct pre as [f|]; simpl.
  - destruct (f text) as [t|e]; simpl; [|done].
    destruct (pop_dtype kw (dtype (self st))) as [dt kw']. simpl.
    rewrite Hc, Ha. simpl.
    by destruct (remote_create E c (log st) _) as [[|r resp]|e].
  - destruct (pop_dtype kw (dtype (self st))) as [dt kw']. simpl.
    rewrite Hc, Ha. simpl.
    by destruct (remote_create E c (log st) _) as [[|r resp]|e].
Qed.

(** ** The decorated entry points *)

Lemma deprecated_argument_warned {A} kw (fn : M A) st :
  deprecated_argument "dtype" kw fn st = fn (warned kw st).
Proof. unfold deprecated_argument, warned. by destruct (kw !! "dtype"). Qed.

Lemma warned_frame kw st :
  self (warned kw st) = self st /\
  attempts_of (log (warned kw st)) = attempts_of (log st) /\
  sleeps_of (log (warned kw st)) = sleeps_of (log st) /\
  creates_of (log (warned kw st)) = creates_of (log st).
Proof.
  unfold warned. destruct (kw !! "dtype"); simpl; [|done].
  rewrite attempts_of_app, sleeps_of_app, creates_of_app. simpl.
  by rewrite !app_nil_r.
Qed.

(** Driving a decorated coroutine function is the synchronous decorator
    stack around the driven body. *)
Lemma run_decorated E {A} kw (fn : coro A) st :
  run_until_complete E (aretry (adeprecated_argument "dtype" kw fn)) st =
  retry (deprecated_argument "dtype" kw (run_until_complete E fn)) st.
Proof.
  unfold aretry, retry. rewrite run_aretry_loop.
  apply retry_loop_agree with (I := fun _ => True); auto.
  intros s _. apply run_adeprecated_argument.
Qed.

Lemma extends_ext P {A} (m m' : M A) :
  (forall st, m st = m' st) -> extends P m' -> extends P m.
Proof. intros Heq Hm st. rewrite Heq. apply Hm. Qed.

Lemma extends_run_co_bind E P {A B} (c : coro A) (f : A -> coro B) :
  extends P (run_until_complete E c) ->
  (forall a, extends P (run_until_complete E (f a))) ->
  extends P (run_until_complete E (co_bind c f)).
Proof.
  intros Hc Hf. eapply extends_ext; [apply run_co_bind|].
  by apply extends_bind.
Qed.

Lemma extends_run_done E P {A} (r : res A) :
  extends P (run_until_complete E (CDone r)).
Proof. intros st; split; [done|]. exists []. by rewrite app_nil_r. Qed.

Lemma extends_run_self E P {A} (k : vectorizer -> coro A) :
  (forall v, extends P (run_until_complete E (k v))) ->
  extends P (run_until_complete E (CSelf k)).
Proof. intros Hk st. apply (Hk (self st) st). Qed.

Lemma extends_run_await_create E {A} c req (k : res response -> coro A) :
  (forall r, extends is_call_event (run_until_complete E (k r))) ->
  extends is_call_event (run_until_complete E (CAwaitCreate c req k)).
Proof.
  intros Hk st. simpl.
  destruct (Hk (remote_create E c (log st) req) (add_event (EvCreate req) st))
    as [Hs (evs & Hl & Hev)]. simpl in *.
  split; [done|]. exists (EvCreate req :: evs).
  rewrite Hl, <- app_assoc. split; [done|]. by constructor.
Qed.

Lemma extends_run_get_aclient E P :
  extends P (run_until_complete E get_aclient).
Proof.
  apply extends_run_self. intros v.
  destruct (_aclient v); apply (extends_run_done E).
Qed.

Lemma extends_run_aembed_many_loop E batches ab dt kw acc :
  extends is_call_event
    (run_until_complete E (aembed_many_loop E batches ab dt kw acc)).
Proof.
  revert acc. induction batches as [|b rest IH]; intros acc; simpl.
  - apply (extends_run_done E).
  - apply extends_run_co_bind; [apply (extends_run_done E)|]. intros batch.
    apply extends_run_co_bind; [apply extends_run_get_aclient|]. intros c.
    apply extends_run_co_bind.
    { apply extends_run_self. intros v. apply (extends_run_done E). }
    intros s. apply extends_run_co_bind.
    { apply extends_run_await_create. intros r. apply (extends_run_done E). }
    intros resp. apply extends_run_co_bind; [apply (extends_run_done E)|].
    intros new. apply IH.
Qed.

Lemma extends_run_aembed_many_body E texts pre bs ab kw :
  extends is_call_event
    (run_until_complete E (aembed_many_body E texts pre bs ab kw)).
Proof.
  unfold aembed_many_body.
  destruct texts; try apply (extends_run_done E).
  match goal with |- context [if ?c then _ else _] => destruct c end;
    [apply (extends_run_done E)|].
  apply extends_run_co_bind.
  { apply extends_run_self. intros v. apply (extends_run_done E). }
  intros s. destruct (pop_dtype kw (dtype s)).
  apply extends_run_aembed_many_loop.
Qed.

Lemma extends_run_aembed_body E text pre ab kw :
  extends is_call_event (run_until_complete E (aembed_body E text pre ab kw)).
Proof.
  unfold aembed_body.
  destruct (negb (isinstance_str text)); [apply (extends_run_done E)|].
  apply extends_run_co_bind.
  { destruct pre; apply (extends_run_done E). }
  intros t. apply extends_run_co_bind.
  { apply extends_run_self. intros v. apply (extends_run_done E). }
  intros s. destruct (pop_dtype kw (dtype s)).
  apply extends_run_co_bind; [apply extends_run_get_aclient|]. intros c.
  apply extends_run_co_bind.
  { apply extends_run_self. intros v. apply (extends_run_done E). }
  intros s'. apply extends_run_co_bind.
  { apply extends_run_await_create. intros r. apply (extends_run_done E). }
  intros [|r ?]; apply (extends_run_done E).
Qed.

(** A function that raises a [TypeError] at some attempt is not run again:
    the error is the outcome of the loop, and the trace has this one attempt
    more and no more sleep. *)
Lemma retry_loop_TypeError_last {A} (fn : M A) k n st e st' :
  extends is_call_event fn ->
  is_TypeError e = true ->
  fn (add_event (EvAttempt n) st) = (Err e, st') ->
  retry_loop k n fn st = (Err e, st') /\
  attempts_of (log st') = attempts_of (log st) ++ [n] /\
  sleeps_of (log st') = sleeps_of (log st).
Proof.
  intros Hext He Hfn. split; [by apply retry_loop_TypeError|].
  destruct (Hext (add_event (EvAttempt n) st)) as [_ (evs & Hl & Hev)].
  rewrite Hfn in Hl. simpl in Hl.
  destruct (call_events_no_attempt _ Hev) as [Ha Hs].
  rewrite Hl, !attempts_of_app, !sleeps_of_app, Ha, Hs. simpl.
  by rewrite !app_nil_r.
Qed.

(** A decorated function that fails on every run with something else than a
    [TypeError] is run six times, with five sleeps whose bounds double from
    one second, and the call ends with a [RetryError]. *)
Lemma retry_exhausted {A} kw (fn : M A) st :
  extends is_call_event fn ->
  (forall s, exists e, (fn s).1 = Err e /\ is_TypeError e = false) ->
  exists e,
    (retry (deprecated_argument "dtype" kw fn) st).1 = Err (RetryError e) /\
    is_TypeError e = false /\
    attempts_of (log (retry (deprecated_argument "dtype" kw fn) st).2)
      = attempts_of (log st) ++ [1; 2; 3; 4; 5; 6] /\
    sleeps_of (log (retry (deprecated_argument "dtype" kw fn) st).2)
      = sleeps_of (log st) ++ [1; 2; 4; 8; 16]%Z.
Proof.
  intros Hext Hfail.
  assert (forall s, exists e,
            (deprecated_argument "dtype" kw fn s).1 = Err e /\
            is_TypeError e = false) as Hfail'.
  { intros s. rewrite deprecated_argument_warned. apply Hfail. }
  destruct (retry_loop_exhaust _ (extends_deprecated_argument "dtype" kw fn Hext)
              Hfail' (stop_after_attempt - 1) 1 st) as (e & Hr & He & Ha & Hs).
  exists e. unfold retry. by rewrite Hr, Ha, Hs.
Qed.

(** ** Input validation *)

Lemma embed_body_not_str E text pre ab kw st :
  isinstance_str text = false ->
  embed_body E text pre ab kw st
    = (Err (TypeError "Must pass in a str value to embed."), st).
Proof. intros H. unfold embed_body. by rewrite H. Qed.

Lemma aembed_body_not_str E text pre ab kw st :
  isinstance_str text = false ->
  run_until_complete E (aembed_body E text pre ab kw) st
    = (Err (TypeError "Must pass in a str value to embed."), st).
Proof. intros H. unfold aembed_body. by rewrite H. Qed.

Lemma embed_many_body_rejected E texts pre bs ab kw st :
  rejected_texts texts = true ->
  embed_many_body E texts pre bs ab kw st
    = (Err (TypeError "Must pass in a list of str values to embed."), st).
Proof.
  intros H. unfold embed_many_body.
  destruct texts as [| | | | |[|first items]|]; try done. simpl in H.
  by rewrite H.
Qed.

Lemma aembed_many_body_rejected E texts pre bs ab kw st :
  rejected_texts texts = true ->
  run_until_complete E (aembed_many_body E texts pre bs ab kw) st
    = (Err (TypeError "Must pass in a list of str values to embed."), st).
Proof.
  intros H. unfold aembed_many_body.
  destruct texts as [| | | | |[|first items]|]; try done. simpl in H.
  by rewrite H.
Qed.

(** C1, as the code has it: [embed] and [aembed] raise a [TypeError] on every
    input that is not a string; [embed_many] and [aembed_many] raise a
    [TypeError] on every input that is not a list and on every list whose
    first element is not a string.  In each case the call ends after the
    first attempt, in a state whose trace has no new remote call. *)
Theorem malformed_input_is_a_type_error E st text texts pre bs ab kw :
  let st' := warned kw (add_event (EvAttempt 1) st) in
  (isinstance_str text = false ->
     embed E text pre ab kw st
       = (Err (TypeError "Must pass in a str value to embed."), st') /\
     run_until_complete E (aembed E text pre ab kw) st
       = (Err (TypeError "Must pass in a str value to embed."), st')) /\
  (rejected_texts texts = true ->
     embed_many E texts pre bs ab kw st
       = (Err (TypeError "Must pass in a list of str values to embed."), st') /\
     run_until_complete E (aembed_many E texts pre bs ab kw) st
       = (Err (TypeError "Must pass in a list of str values to embed."), st')) /\
  creates_of (log st') = creates_of (log st).
Proof.
  intros st'. split; [|split].
  - intros H. split.
    + unfold embed, retry. apply retry_loop_TypeError; [|done].
      rewrite deprecated_argument_warned. by apply embed_body_not_str.
    + unfold aembed. rewrite run_decorated. unfold retry.
      apply retry_loop_TypeError; [|done].
      rewrite deprecated_argument_warned. by apply aembed_body_not_str.
  - intros H. split.
    + unfold embed_many, retry. apply retry_loop_TypeError; [|done].
      rewrite deprecated_argument_warned. by apply embed_many_body_rejected.
    + unfold aembed_many. rewrite run_decorated. unfold retry.
      apply retry_loop_TypeError; [|done].
      rewrite deprecated_argument_warned. by apply aembed_many_body_rejected.
  - subst st'. destruct (warned_frame kw (add_event (EvAttempt 1) st))
      as (_ & _ & _ & ->). simpl. rewrite creates_of_app. simpl.
    by rewrite app_nil_r.
Qed.

Lemma malformed_input_is_a_type_error_witness :
  let st' := add_event (EvAttempt 1) Examples.ready in
  (embed Examples.env_up (PInt 1) None false ∅ Examples.ready
     = (Err (TypeError "Must pass in a str value to embed."), st') /\
   run_until_complete Examples.env_up
     (aembed Examples.env_up (PInt 1) None false ∅) Examples.ready
     = (Err (TypeError "Must pass in a str value to embed."), st')) /\
  (embed_many Examples.env_up (PList [PInt 1; PStr "a"]) None 10 false ∅
     Examples.ready
     = (Err (TypeError "Must pass in a list of str values to embed."), st') /\
   run_until_complete Examples.env_up
     (aembed_many Examples.env_up (PList [PInt 1; PStr "a"]) None 10 false ∅)
     Examples.ready
     = (Err (TypeError "Must pass in a list of str values to embed."), st')).
Proof.
  destruct (malformed_input_is_a_type_error Examples.env_up Examples.ready
              (PInt 1) (PList [PInt 1; PStr "a"]) None 10 false ∅)
    as (H1 & H2 & _).
  split; [apply H1; reflexivity | apply H2; reflexivity].
Defined.

(** C1, as the claim states it, fails: the list [["a", 1]] holds a
    non-string at its second position, yet [embed_many] raises nothing,
    sends the whole list to the remote endpoint and returns two embeddings. *)
Lemma non_string_after_the_first_is_sent :
  let texts := [PStr "a"; PInt 1] in
  let out := embed_many Examples.env_up (PList texts) None 10 false ∅
               Examples.ready in
  PInt 1 ∈ texts /\ isinstance_str (PInt 1) = false /\
  out.1 = Ok [Floats Examples.v3; Floats Examples.v3] /\
  creates_of (log out.2) = [batch_request "text-embedding-ada-002" ∅ texts].
Proof.
  split; [|split; [|split]].
  - apply list_elem_of_In. right. by left.
  - reflexivity.
  - vm_compute. reflexivity.
  - vm_compute. reflexivity.
Qed.

(** ** Retrying *)

(** C2. When the body of [embed], [embed_many], [aembed] or [aembed_many]
    raises a [TypeError], the call is not retried: a [TypeError] of the
    first attempt is the outcome of the call, in the state the body left,
    with one attempt and no sleep in the trace; and at whatever attempt the
    retry loop runs the body, a [TypeError] ends the loop there, with no
    further attempt and no sleep. *)
Theorem type_error_is_not_retried E text texts pre bs ab kw e :
  is_TypeError e = true ->
  let ends_at (n : nat) (st st' : state) :=
    attempts_of (log st') = attempts_of (log st) ++ [n] /\
    sleeps_of (log st') = sleeps_of (log st) in
  let not_retried {A} (body call : M A) :=
    (forall st st',
       body (add_event (EvAttempt 1) st) = (Err e, st') ->
       call st = (Err e, st') /\ ends_at 1 st st') /\
    (forall k n st st',
       body (add_event (EvAttempt n) st) = (Err e, st') ->
       retry_loop k n body st = (Err e, st') /\ ends_at n st st') in
  not_retried
    (deprecated_argument "dtype" kw (embed_body E text pre ab kw))
    (embed E text pre ab kw) /\
  not_retried
    (deprecated_argument "dtype" kw (embed_many_body E texts pre bs ab kw))
    (embed_many E texts pre bs ab kw) /\
  not_retried
    (deprecated_argument "dtype" kw
       (run_until_complete E (aembed_body E text pre ab kw)))
    (run_until_complete E (aembed E text pre ab kw)) /\
  not_retried
    (deprecated_argument "dtype" kw
       (run_until_complete E (aembed_many_body E texts pre bs ab kw)))
    (run_until_complete E (aembed_many E texts pre bs ab kw)).
Proof.
  intros He ends_at not_retried.
  assert (forall {A} (fn : M A) (call : M A),
            extends is_call_event fn ->
            (forall st, call st = retry (deprecated_argument "dtype" kw fn) st) ->
            not_retried A (deprecated_argument "dtype" kw fn) call) as Hgen.
  { intros A fn call Hext Hcall. split.
    - intros st st' H. rewrite Hcall. unfold retry.
      by apply retry_loop_TypeError_last;
        [apply extends_deprecated_argument|..].
    - intros k n st st' H.
      by apply retry_loop_TypeError_last;
        [apply extends_deprecated_argument|..]. }
  split; [|split; [|split]].
  - by apply Hgen; [apply extends_embed_body|].
  - by apply Hgen; [apply extends_embed_many_body|].
  - apply Hgen; [apply extends_run_aembed_body|].
    intros st. apply run_decorated.
  - apply Hgen; [apply extends_run_aembed_many_body|].
    intros st. apply run_decorated.
Qed.

Lemma type_error_is_not_retried_witness :
  let st' := add_event (EvAttempt 1) Examples.ready in
  let e1 := TypeError "Must pass in a str value to embed." in
  let e2 := TypeError "Must pass in a list of str values to embed." in
  let once := attempts_of (log st') = attempts_of (log Examples.ready) ++ [1]
              /\ sleeps_of (log st') = sleeps_of (log Examples.ready) in
  (embed Examples.env_up (PInt 1) None false ∅ Examples.ready = (Err e1, st')
   /\ once) /\
  (embed_many Examples.env_up (PInt 42) None 10 false ∅ Examples.ready
     = (Err e2, st') /\ once) /\
  (run_until_complete Examples.env_up
     (aembed Examples.env_up (PInt 1) None false ∅) Examples.ready
     = (Err e1, st') /\ once) /\
  (run_until_complete Examples.env_up
     (aembed_many Examples.env_up (PInt 42) None 10 false ∅) Examples.ready
     = (Err e2, st') /\ once).
Proof.
  intros st' e1 e2 once.
  destruct (type_error_is_not_retried Examples.env_up
              (PInt 1) (PInt 42) None 10 false ∅ e1 eq_refl)
    as ((H1 & _) & _ & (H3 & _) & _).
  destruct (type_error_is_not_retried Examples.env_up
              (PInt 1) (PInt 42) None 10 false ∅ e2 eq_refl)
    as (_ & (H2 & _) & _ & (H4 & _)).
  split; [apply H1; reflexivity|].
  split; [apply H2; reflexivity|].
  split; [apply H3; reflexivity | apply H4; reflexivity].
Defined.

(** C3. When the body of [embed], [embed_many], [aembed] or [aembed_many]
    raises on every run an exception that is not a [TypeError], the call
    runs the body six times and no seventh (attempts 1 to 6), sleeps
    between two attempts with upper bounds that double (1, 2, 4, 8, 16
    seconds, capped at 60), and then raises a [RetryError] that carries the
    last failure to the caller. *)
Theorem other_errors_are_retried_six_times E st text texts pre bs ab kw :
  let fails {A} (body : M A) :=
    forall s, exists e, (body s).1 = Err e /\ is_TypeError e = false in
  let exhausted {A} (out : res A * state) :=
    exists e, out.1 = Err (RetryError e) /\ is_TypeError e = false /\
      attempts_of (log out.2) = attempts_of (log st) ++ [1; 2; 3; 4; 5; 6] /\
      sleeps_of (log out.2) = sleeps_of (log st) ++ [1; 2; 4; 8; 16]%Z in
  (fails (embed_body E text pre ab kw) ->
   exhausted (embed E text pre ab kw st)) /\
  (fails (embed_many_body E texts pre bs ab kw) ->
   exhausted (embed_many E texts pre bs ab kw st)) /\
  (fails (run_until_complete E (aembed_body E text pre ab kw)) ->
   exhausted (run_until_complete E (aembed E text pre ab kw) st)) /\
  (fails (run_until_complete E (aembed_many_body E texts pre bs ab kw)) ->
   exhausted (run_until_complete E (aembed_many E texts pre bs ab kw) st)).
Proof.
  intros fails exhausted. split; [|split; [|split]]; intros H.
  - apply retry_exhausted; [apply extends_embed_body | done].
  - apply retry_exhausted; [apply extends_embed_many_body | done].
  - unfold exhausted, aembed. rewrite run_decorated.
    apply retry_exhausted; [apply extends_run_aembed_body | done].
  - unfold exhausted, aembed_many. rewrite run_decorated.
    apply retry_exhausted; [apply extends_run_aembed_many_body | done].
Qed.

Lemma embed_body_fails_when_down s :
  exists e, (embed_body Examples.env_down (PStr "a") None false ∅ s).1 = Err e
            /\ is_TypeError e = false.
Proof.
  unfold embed_body, bind, lift, ret, get_self, get_client, create. simpl.
  destruct (_client (self s)); simpl; eexists; split; reflexivity.
Qed.

Lemma embed_many_body_fails_when_down s :
  exists e,
    (embed_many_body Examples.env_down (PList [PStr "a"]) None 10 false ∅ s).1
      = Err e /\ is_TypeError e = false.
Proof.
  unfold embed_many_body, bind, lift, ret, get_self, get_client, create. simpl.
  unfold bind, lift, get_client. simpl.
  destruct (_client (self s)); simpl; eexists; split; reflexivity.
Qed.

Lemma aembed_body_fails_when_down s :
  exists e,
    (run_until_complete Examples.env_down
       (aembed_body Examples.env_down (PStr "a") None false ∅) s).1 = Err e
    /\ is_TypeError e = false.
Proof.
  unfold aembed_body. simpl.
  destruct (_aclient (self s)); simpl; eexists; split; reflexivity.
Qed.

Lemma aembed_many_body_fails_when_down s :
  exists e,
    (run_until_complete Examples.env_down
       (aembed_many_body Examples.env_down (PList [PStr "a"]) None 10 false ∅)
       s).1 = Err e
    /\ is_TypeError e = false.
Proof.
  unfold aembed_many_body. simpl.
  destruct (_aclient (self s)); simpl; eexists; split; reflexivity.
Qed.

Lemma other_errors_are_retried_six_times_witness :
  let exhausted {A} (out : res A * state) :=
    exists e, out.1 = Err (RetryError e) /\ is_TypeError e = false /\
      attempts_of (log out.2)
        = attempts_of (log Examples.ready) ++ [1; 2; 3; 4; 5; 6] /\
      sleeps_of (log out.2)
        = sleeps_of (log Examples.ready) ++ [1; 2; 4; 8; 16]%Z in
  exhausted (embed Examples.env_down (PStr "a") None false ∅ Examples.ready) /\
  exhausted (embed_many Examples.env_down (PList [PStr "a"]) None 10 false ∅
               Examples.ready) /\
  exhausted (run_until_complete Examples.env_down
               (aembed Examples.env_down (PStr "a") None false ∅)
               Examples.ready) /\
  exhausted (run_until_complete Examples.env_down
               (aembed_many Examples.env_down (PList [PStr "a"]) None 10
                  false ∅) Examples.ready).
Proof.
  intros exhausted.
  destruct (other_errors_are_retried_six_times Examples.env_down
              Examples.ready (PStr "a") (PList [PStr "a"]) None 10 false ∅)
    as (H1 & H2 & H3 & H4).
  split; [apply H1, embed_body_fails_when_down|].
  split; [apply H2, embed_many_body_fails_when_down|].
  split; [apply H3, aembed_body_fails_when_down
         | apply H4, aembed_many_body_fails_when_down].
Defined.

(** The outcome of the six failed attempts against an unreachable service. *)
Example embed_when_down :
  (embed Examples.env_down (PStr "a") None false ∅ Examples.ready).1
    = Err (RetryError (OtherError "APIConnectionError" "Connection error.")).
Proof. vm_compute. reflexivity. Qed.

(** ** Blocking and cooperative calls *)

Lemma constructed_add_event c e st :
  constructed c st -> constructed c (add_event e st).
Proof. by intros [? ?]. Qed.

Lemma constructed_warned c kw st :
  constructed c st -> constructed c (warned kw st).
Proof. unfold warned. destruct (kw !! "dtype"); [apply constructed_add_event | done]. Qed.

Lemma constructed_extends c P {A} (m : M A) st :
  extends P m -> constructed c st -> constructed c (m st).2.
Proof. intros Hm [? ?]. destruct (Hm st) as [Hs _]. unfold constructed. by rewrite Hs. Qed.

(** The decorator stack gives the same call around two bodies that agree on
    a constructed object. *)
Lemma retry_agree_constructed {A} c kw (f g : M A) st :
  (forall s, constructed c s -> f s = g s) ->
  extends is_call_event g ->
  constructed c st ->
  retry (deprecated_argument "dtype" kw f) st
  = retry (deprecated_argument "dtype" kw g) st.
Proof.
  intros Hfg Hg Hst. unfold retry.
  apply retry_loop_agree with (I := constructed c); [| | |done].
  - intros s Hs. rewrite !deprecated_argument_warned.
    by apply Hfg, constructed_warned.
  - intros s Hs. rewrite deprecated_argument_warned.
    by eapply constructed_extends, constructed_warned.
  - intros e s. apply constructed_add_event.
Qed.

Lemma run_aembed_is_embed E c st text pre ab kw :
  constructed c st ->
  run_until_complete E (aembed E text pre ab kw) st
    = embed E text pre ab kw st.
Proof.
  intros Hst. unfold aembed, embed. rewrite run_decorated.
  apply retry_agree_constructed with c; [|apply extends_embed_body|done].
  intros s [Hc Ha]. by apply run_aembed_body with c.
Qed.

Lemma run_aembed_many_is_embed_many E c st texts pre bs ab kw :
  constructed c st ->
  run_until_complete E (aembed_many E texts pre bs ab kw) st
    = embed_many E texts pre bs ab kw st.
Proof.
  intros Hst. unfold aembed_many, embed_many. rewrite run_decorated.
  apply retry_agree_constructed with c; [|apply extends_embed_many_body|done].
  intros s [Hc Ha]. by apply run_aembed_many_body with c.
Qed.

(** C7. On a constructed vectorizer, whose two clients are configured alike
    and so get identical responses from the remote endpoint, driving
    [aembed] to completion gives the value and the final state of [embed]
    on the same arguments, and [aembed_many] those of [embed_many]. *)
Theorem async_calls_agree_with_sync_calls E c st text texts pre bs ab kw :
  constructed c st ->
  run_until_complete E (aembed E text pre ab kw) st
    = embed E text pre ab kw st /\
  run_until_complete E (aembed_many E texts pre bs ab kw) st
    = embed_many E texts pre bs ab kw st.
Proof.
  intros Hst. split.
  - by apply run_aembed_is_embed with c.
  - by apply run_aembed_many_is_embed_many with c.
Qed.

Lemma async_calls_agree_with_sync_calls_witness :
  run_until_complete Examples.env_up
    (aembed Examples.env_up (PStr "hello") None false ∅) Examples.ready
    = embed Examples.env_up (PStr "hello") None false ∅ Examples.ready /\
  run_until_complete Examples.env_up
    (aembed_many Examples.env_up (PList [PStr "a"; PStr "b"; PStr "c"])
       None 2 false ∅) Examples.ready
    = embed_many Examples.env_up (PList [PStr "a"; PStr "b"; PStr "c"])
        None 2 false ∅ Examples.ready.
Proof.
  apply (async_calls_agree_with_sync_calls Examples.env_up Examples.a_client).
  split; reflexivity.
Defined.

(** ** Batching *)

Lemma chunks_concat {A} size (Hsize : 0 < size) fuel (l : list A) :
  length l <= fuel -> concat (chunks fuel size l) = l.
Proof.
  revert l. induction fuel as [|fuel IH]; intros l Hl.
  - destruct l; [done | simpl in Hl; lia].
  - destruct l as [|x l]; [done|].
    change (chunks (S fuel) size (x :: l))
      with (take size (x :: l) :: chunks fuel size (drop size (x :: l))).
    simpl concat. rewrite IH; [apply take_drop|].
    rewrite length_drop. simpl in *. lia.
Qed.

Lemma chunks_bound {A} size (Hsize : 0 < size) fuel (l : list A) :
  Forall (fun b => 0 < length b <= size) (chunks fuel size l).
Proof.
  revert l. induction fuel as [|fuel IH]; intros l; [constructor|].
  destruct l as [|x l]; [constructor|].
  change (chunks (S fuel) size (x :: l))
    with (take size (x :: l) :: chunks fuel size (drop size (x :: l))).
  constructor; [|apply IH].
  rewrite length_take. simpl. lia.
Qed.

Lemma chunks_map {A B} (g : A -> B) fuel size (l : list A) :
  chunks fuel size (map g l) = map (map g) (chunks fuel size l).
Proof.
  revert l. induction fuel as [|fuel IH]; intros l; [done|].
  destruct l as [|x l]; [done|].
  change (chunks (S fuel) size (map g (x :: l)))
    with (take size (map g (x :: l))
            :: chunks fuel size (drop size (map g (x :: l)))).
  change (chunks (S fuel) size (x :: l))
    with (take size (x :: l) :: chunks fuel size (drop size (x :: l))).
  simpl map at 3. f_equal.
  - apply firstn_map.
  - rewrite <- IH. f_equal. apply skipn_map.
Qed.

Lemma res_map_Ok {A B} (f : A -> res B) (g : A -> B) l :
  (forall x, f x = Ok (g x)) -> res_map f l = Ok (map g l).
Proof.
  intros Hf. induction l as [|x l IH]; [done|]. simpl.
  by rewrite Hf, IH.
Qed.

Lemma res_map_Forall2 {A B} (f : A -> res B) l :
  (forall x, exists y, f x = Ok y) ->
  exists ys, res_map f l = Ok ys /\ Forall2 (fun x y => f x = Ok y) l ys.
Proof.
  intros Hf. induction l as [|x l (ys & Hys & HF)].
  - exists []. split; [done | constructor].
  - destruct (Hf x) as [y Hy]. exists (y :: ys). simpl. rewrite Hy, Hys.
    split; [done | by constructor].
Qed.

(** With a positive size and a preprocessing that does not raise, the
    generator yields the chunks of the preprocessed texts. *)
Lemma batchify_chunks items bs pre g :
  (0 < bs)%Z -> preprocess_as pre g ->
  batchify items bs pre
    = map Ok (chunks (length items) (Z.to_nat bs) (map g items)).
Proof.
  intros Hbs Hpre. unfold batchify.
  destruct (Z.leb_spec bs 0) as [?|_]; [lia|].
  rewrite chunks_map, map_map. apply map_ext. intros batch.
  unfold preprocess_batch. destruct pre as [f|]; simpl in Hpre.
  - by apply res_map_Ok.
  - f_equal. symmetry. transitivity (map (fun x => x) batch);
      [apply map_ext; intros x; apply Hpre | apply map_id].
Qed.

Lemma process_embedding_total E ab dt v :
  output_form_ok E ab dt -> exists e, _process_embedding E v ab dt = Ok e.
Proof.
  intros Hok. unfold _process_embedding. destruct ab; [|by eexists].
  destruct (Hok eq_refl) as [w ->]. by eexists.
Qed.

(** The loop over the batches, when the service answers and the output form
    exists: one remote call per batch, in order, and one embedding per text
    of the batches, in order. *)
Lemma embed_many_loop_ok E R c ab dt kw :
  remote_answers E R -> output_form_ok E ab dt ->
  forall batches acc st,
    _client (self st) = Some c ->
    exists new st',
      embed_many_loop E (map Ok batches) ab dt kw acc st
        = (Ok (acc ++ new), st') /\
      Forall2 (fun x e => exists v, R x v /\ _process_embedding E v ab dt = Ok e)
              (concat batches) new /\
      self st' = self st /\
      log st' = log st
                ++ map (fun b => EvCreate (batch_request (model (self st)) kw b))
                       batches.
Proof.
  intros Hrem Hok. induction batches as [|b rest IH]; intros acc st Hc.
  - exists [], st. simpl. rewrite !app_nil_r. repeat split; constructor.
  - simpl. unfold bind at 1, lift at 1. unfold bind at 1, get_client at 1.
    rewrite Hc. unfold bind at 1, get_self at 1. unfold bind at 1, create at 1.
    destruct (Hrem c (log st)
                {| r_input := b; r_model := model (self st); r_kwargs := kw |})
      as (vs & -> & HR).
    destruct (res_map_Forall2 (fun r => _process_embedding E r ab dt) vs)
      as (new & Hnew & HF); [intros v; by apply process_embedding_total|].
    unfold bind at 1, lift at 1. rewrite Hnew.
    destruct (IH (acc ++ new) (add_event (EvCreate
                {| r_input := b; r_model := model (self st); r_kwargs := kw |}) st))
      as (new' & st' & Hloop & HF' & Hs & Hl); [done|].
    exists (new ++ new'), st'. rewrite Hloop, app_assoc.
    split; [done|]. split; [|split; [done|]].
    + apply Forall2_app; [|done]. simpl in HR.
      clear -HR HF. revert new HF. induction HR as [|x v xs vs' Hxv _ IHR];
        intros new HF; inversion HF; subst; constructor; eauto.
    + rewrite Hl. simpl. by rewrite <- app_assoc.
Qed.

Lemma creates_of_requests (reqs : list request) :
  creates_of (map EvCreate reqs) = reqs.
Proof. induction reqs as [|r reqs IH]; [done|]. simpl. by rewrite IH. Qed.

Lemma strings_not_rejected items :
  Forall (fun t => isinstance_str t = true) items ->
  rejected_texts (PList items) = false.
Proof. intros [|t rest Ht _]; [done|]. simpl. by rewrite Ht. Qed.

(** A call of [embed_many] on a constructed object, with an accepted list, a
    positive batch size and a preprocessing that does not raise, against a
    service that answers: the first attempt succeeds. *)
Lemma embed_many_ok E R c st items pre g bs ab kw :
  _client (self st) = Some c ->
  rejected_texts (PList items) = false ->
  (0 < bs)%Z -> preprocess_as pre g ->
  remote_answers E R ->
  output_form_ok E ab (pop_dtype kw (dtype (self st))).1 ->
  exists embs st',
    embed_many E (PList items) pre bs ab kw st = (Ok embs, st') /\
    Forall2 (fun x e => exists v, R x v /\
               _process_embedding E v ab (pop_dtype kw (dtype (self st))).1
                 = Ok e)
            (map g items) embs /\
    self st' = self st /\
    creates_of (log st')
      = creates_of (log st)
        ++ map (batch_request (model (self st))
                  (pop_dtype kw (dtype (self st))).2)
               (chunks (length items) (Z.to_nat bs) (map g items)).
Proof.
  intros Hc Hacc Hbs Hpre Hrem Hok.
  set (st1 := warned kw (add_event (EvAttempt 1) st)).
  destruct (warned_frame kw (add_event (EvAttempt 1) st))
    as (Hs1 & _ & _ & Hcr1). fold st1 in Hs1, Hcr1. simpl in Hs1, Hcr1.
  assert (_client (self st1) = Some c) as Hc1 by (by rewrite Hs1).
  destruct (pop_dtype kw (dtype (self st))) as [dt kw'] eqn:Hpop.
  simpl in Hok |- *.
  destruct (embed_many_loop_ok E R c ab dt kw' Hrem Hok
              (chunks (length items) (Z.to_nat bs) (map g items)) [] st1 Hc1)
    as (embs & st' & Hloop & HF & Hs & Hl).
  exists embs, st'. split; [|split; [|split]].
  - unfold embed_many, retry. apply retry_loop_Ok.
    rewrite deprecated_argument_warned. fold st1.
    unfold embed_many_body.
    replace (match items with
             | [] => false
             | first :: _ => negb (isinstance_str first)
             end) with false by (by destruct items).
    unfold bind at 1, get_self at 1. rewrite Hs1, Hpop.
    by rewrite (batchify_chunks items bs pre g Hbs Hpre).
  - rewrite chunks_concat in HF; [done | lia | by rewrite length_map].
  - congruence.
  - rewrite Hl, creates_of_app, Hcr1, creates_of_app. simpl.
    rewrite app_nil_r, Hs1. f_equal.
    rewrite <- (creates_of_requests (map _ (chunks _ _ _))).
    by rewrite map_map.
Qed.

(** C6. For every list of strings and every positive [batch_size], on a
    constructed vectorizer and against a service that answers each input
    text with its vector, [embed_many] cuts the (preprocessed) texts into
    consecutive batches of at most [batch_size] texts whose concatenation is
    the input, issues exactly one remote call per batch, in order, and
    returns one embedding per text, in input order: the i-th embedding is
    the processed vector of the i-th text. *)
Theorem embed_many_batches_in_order E c st items pre g bs ab kw f :
  constructed c st ->
  Forall (fun t => isinstance_str t = true) items ->
  (0 < bs)%Z ->
  preprocess_as pre g ->
  (forall c lg req, remote_create E c lg req = Ok (map f (r_input req))) ->
  output_form_ok E ab (pop_dtype kw (dtype (self st))).1 ->
  let batches := chunks (length items) (Z.to_nat bs) (map g items) in
  concat batches = map g items /\
  Forall (fun b => 0 < length b <= Z.to_nat bs) batches /\
  exists embs st',
    embed_many E (PList items) pre bs ab kw st = (Ok embs, st') /\
    creates_of (log st')
      = creates_of (log st)
        ++ map (batch_request (model (self st))
                  (pop_dtype kw (dtype (self st))).2) batches /\
    Forall2 (fun t e =>
               _process_embedding E (f (g t)) ab
                 (pop_dtype kw (dtype (self st))).1 = Ok e)
            items embs.
Proof.
  intros [Hc _] Hstr Hbs Hpre Hrem Hok batches.
  split; [|split].
  - apply chunks_concat; [lia | by rewrite length_map].
  - apply chunks_bound. lia.
  - assert (remote_answers E (fun x v => v = f x)) as Hans.
    { intros c' lg req. exists (map f (r_input req)). split; [apply Hrem|].
      induction (r_input req); constructor; auto. }
    destruct (embed_many_ok E _ c st items pre g bs ab kw Hc
                (strings_not_rejected _ Hstr) Hbs Hpre Hans Hok)
      as (embs & st' & Hcall & HF & _ & Hcr).
    exists embs, st'. split; [done|]. split; [done|].
    clear -HF. revert embs HF.
    induction items as [|t items IH]; intros embs HF; inversion HF; subst;
      constructor; auto.
    match goal with H : exists v, _ |- _ => destruct H as (v & -> & Hv) end.
    done.
Qed.

Lemma embed_many_batches_in_order_witness :
  let items := [PStr "a"; PStr "b"; PStr "c"] in
  exists embs st',
    embed_many Examples.env_up (PList items) None 2 false ∅ Examples.ready
      = (Ok embs, st') /\
    creates_of (log st')
      = [batch_request "text-embedding-ada-002" ∅ [PStr "a"; PStr "b"];
         batch_request "text-embedding-ada-002" ∅ [PStr "c"]] /\
    Forall2 (fun t e => Ok (Floats Examples.v3) = Ok e) items embs.
Proof.
  intros items.
  assert (Forall (fun t => isinstance_str t = true) items) as Hstr
    by (repeat constructor).
  destruct (embed_many_batches_in_order Examples.env_up Examples.a_client
              Examples.ready items None (fun x => x) 2 false ∅
              (fun _ => Examples.v3)
              (conj eq_refl eq_refl) Hstr eq_refl (fun x => eq_refl)
              (fun _ _ _ => eq_refl) (fun H => False_ind _ (Bool.diff_false_true H)))
    as (_ & _ & embs & st' & H1 & H2 & H3).
  exists embs, st'. split; [exact H1|]. split; [exact H2 | exact H3].
Defined.

Lemma process_embedding_form E v ab dt e :
  _process_embedding E v ab dt = Ok e ->
  match e with
  | Floats v' => ab = false /\ v' = v
  | Buffer dt' w v' =>
      ab = true /\ dt' = dt /\ dtype_itemsize E dt = Some w /\ v' = v
  end.
Proof.
  unfold _process_embedding. destruct ab.
  - destruct (dtype_itemsize E dt) as [w|]; [|done].
    intros [= <-]. done.
  - intros [= <-]. done.
Qed.

(** C4, as the code has it.  For every list of strings of length N and every
    positive [batch_size], on a constructed vectorizer of declared dimension
    [dims], against a service that returns exactly one vector of that
    dimension per input, [embed_many] and [aembed_many] return exactly N
    embeddings.  Without [as_buffer] each is a list of [dims] floats; with
    [as_buffer] each is a buffer that packs [dims] floats, so its length is
    [dims] times the width of the datatype. *)
Theorem embed_many_returns_one_embedding_per_text
    E c st items pre g bs ab kw d :
  constructed c st ->
  dims (self st) = Some d ->
  Forall (fun t => isinstance_str t = true) items ->
  (0 < bs)%Z ->
  preprocess_as pre g ->
  remote_answers E (fun _ v => length v = d) ->
  output_form_ok E ab (pop_dtype kw (dtype (self st))).1 ->
  exists embs st',
    embed_many E (PList items) pre bs ab kw st = (Ok embs, st') /\
    run_until_complete E (aembed_many E (PList items) pre bs ab kw) st
      = (Ok embs, st') /\
    length embs = length items /\
    Forall (fun e =>
              match e with
              | Floats v => ab = false /\ dims (self st') = Some (py_len e)
              | Buffer _ w v =>
                  ab = true /\ dims (self st') = Some (length v) /\
                  py_len e = w * d
              end) embs.
Proof.
  intros Hcon Hd Hstr Hbs Hpre Hrem Hok.
  destruct (embed_many_ok E _ c st items pre g bs ab kw (proj1 Hcon)
              (strings_not_rejected _ Hstr) Hbs Hpre Hrem Hok)
    as (embs & st' & Hcall & HF & Hs & _).
  exists embs, st'. split; [done|]. split; [|split].
  - by rewrite (run_aembed_many_is_embed_many E c).
  - apply Forall2_length in HF. by rewrite length_map in HF.
  - rewrite Hs, Hd. clear -HF.
    induction HF as [|x e xs es (v & Hv & He) _ IH]; constructor; [|done].
    apply process_embedding_form in He.
    destruct e as [v'|dt' w v'].
    + destruct He as [-> ->]. simpl. by rewrite Hv.
    + destruct He as (-> & _ & _ & ->). simpl. by rewrite Hv.
Qed.

Lemma env_up_answers :
  remote_answers Examples.env_up (fun _ v => length v = 3).
Proof.
  intros c lg req. exists (map (fun _ => Examples.v3) (r_input req)).
  split; [done|]. induction (r_input req); constructor; auto.
Qed.

Lemma embed_many_returns_one_embedding_per_text_witness :
  let items := [PStr "a"; PStr "b"; PStr "c"] in
  exists embs st',
    embed_many Examples.env_up (PList items) None 2 false ∅ Examples.ready
      = (Ok embs, st') /\
    run_until_complete Examples.env_up
      (aembed_many Examples.env_up (PList items) None 2 false ∅) Examples.ready
      = (Ok embs, st') /\
    length embs = 3 /\
    Forall (fun e =>
              match e with
              | Floats v => false = false /\ dims (self st') = Some (py_len e)
              | Buffer _ w v =>
                  false = true /\ dims (self st') = Some (length v) /\
                  py_len e = w * 3
              end) embs.
Proof.
  intros items.
  assert (Forall (fun t => isinstance_str t = true) items) as Hstr
    by (repeat constructor).
  exact (embed_many_returns_one_embedding_per_text Examples.env_up
           Examples.a_client Examples.ready items None (fun x => x) 2 false ∅ 3
           (conj eq_refl eq_refl) eq_refl Hstr eq_refl (fun x => eq_refl)
           env_up_answers
           (fun H => False_ind _ (Bool.diff_false_true H))).
Defined.

(** C4, as the claim states it, fails: the service returns one vector of
    the declared dimension 3 per input, the input is a list of one string,
    and with [as_buffer] the embedding returned is a [float32] buffer of 12
    bytes, not of length 3. *)
Lemma a_buffer_is_longer_than_dims :
  let out := embed_many Examples.env_up (PList [PStr "a"]) None 10 true ∅
               Examples.ready in
  remote_answers Examples.env_up (fun _ v => length v = 3) /\
  dims (self Examples.ready) = Some 3 /\
  exists e, out.1 = Ok [e] /\ py_len e = 12 /\
            Some (py_len e) <> dims (self out.2).
Proof.
  split; [apply env_up_answers|]. split; [done|].
  exists (Buffer (PStr "float32") 4 Examples.v3).
  split; [vm_compute; reflexivity|]. split; [reflexivity|].
  vm_compute. discriminate.
Qed.

(** C8. For the empty list and a positive [batch_size], [embed_many] and
    [aembed_many] return the empty list after one attempt, and the trace has
    no new remote call. *)
Theorem empty_list_needs_no_remote_call E st pre bs ab kw :
  (0 < bs)%Z ->
  let st' := warned kw (add_event (EvAttempt 1) st) in
  embed_many E (PList []) pre bs ab kw st = (Ok [], st') /\
  run_until_complete E (aembed_many E (PList []) pre bs ab kw) st
    = (Ok [], st') /\
  creates_of (log st') = creates_of (log st).
Proof.
  intros Hbs st'.
  assert (batchify [] bs pre = []) as Hb.
  { unfold batchify. destruct (Z.leb_spec bs 0); [lia | done]. }
  split; [|split].
  - unfold embed_many, retry. apply retry_loop_Ok.
    rewrite deprecated_argument_warned. fold st'.
    unfold embed_many_body, bind, get_self.
    destruct (pop_dtype kw (dtype (self st'))). by rewrite Hb.
  - unfold aembed_many. rewrite run_decorated. unfold retry.
    apply retry_loop_Ok. rewrite deprecated_argument_warned. fold st'.
    unfold aembed_many_body. simpl.
    destruct (pop_dtype kw (dtype (self st'))). by rewrite Hb.
  - subst st'. destruct (warned_frame kw (add_event (EvAttempt 1) st))
      as (_ & _ & _ & ->). simpl. rewrite creates_of_app. simpl.
    by rewrite app_nil_r.
Qed.

Lemma empty_list_needs_no_remote_call_witness :
  let st' := add_event (EvAttempt 1) Examples.ready in
  embed_many Examples.env_up (PList []) None 10 false ∅ Examples.ready
    = (Ok [], st') /\
  run_until_complete Examples.env_up
    (aembed_many Examples.env_up (PList []) None 10 false ∅) Examples.ready
    = (Ok [], st') /\
  creates_of (log st') = creates_of (log Examples.ready).
Proof.
  exact (empty_list_needs_no_remote_call Examples.env_up Examples.ready
           None 10 false ∅ eq_refl).
Defined.

(** ** The entry points leave the object alone *)

Lemma extends_embed E text pre ab kw :
  extends is_embed_event (embed E text pre ab kw).
Proof.
  apply extends_retry_loop, extends_deprecated_argument, extends_embed_body.
Qed.

Lemma extends_embed_many E texts pre bs ab kw :
  extends is_embed_event (embed_many E texts pre bs ab kw).
Proof.
  apply extends_retry_loop, extends_deprecated_argument,
    extends_embed_many_body.
Qed.

Lemma extends_run_aembed E text pre ab kw :
  extends is_embed_event (run_until_complete E (aembed E text pre ab kw)).
Proof.
  eapply extends_ext; [intros st; apply run_decorated|].
  apply extends_retry_loop, extends_deprecated_argument,
    extends_run_aembed_body.
Qed.

Lemma extends_run_aembed_many E texts pre bs ab kw :
  extends is_embed_event
    (run_until_complete E (aembed_many E texts pre bs ab kw)).
Proof.
  eapply extends_ext; [intros st; apply run_decorated|].
  apply extends_retry_loop, extends_deprecated_argument,
    extends_run_aembed_many_body.
Qed.

Lemma embed_events_no_getenv evs :
  Forall is_embed_event evs -> getenvs_of evs = [].
Proof.
  induction 1 as [|e evs He _ IH]; [done|].
  destruct e; simpl in He; try contradiction; exact IH.
Qed.

(** ** The dimension probe *)

Lemma embed_Err_form E text pre ab kw st e st' :
  embed E text pre ab kw st = (Err e, st') ->
  is_KeyError_or_IndexError e = false /\ is_Exception e = true.
Proof.
  intros H. apply retry_loop_Err_form in H as [He|[e' ->]]; [|done].
  by destruct e.
Qed.

Lemma set_model_dims_Err E st e st' :
  embed E (PStr "dimension check") None false ∅ st = (Err e, st') ->
  _set_model_dims E st
    = (Err (ValueError ("Error setting embedding model dimensions: "
                        +:+ exn_str e)), st').
Proof.
  intros H. unfold _set_model_dims. rewrite H.
  apply embed_Err_form in H as [-> ->]. done.
Qed.

Lemma set_model_dims_Ok E st emb st' :
  embed E (PStr "dimension check") None false ∅ st = (Ok emb, st') ->
  _set_model_dims E st = (Ok (py_len emb), st').
Proof. intros H. unfold _set_model_dims. by rewrite H. Qed.

(** A probe that succeeds ends with one remote call, for the sentinel text
    alone, whose answer starts with the vector returned. *)
Lemma probe_Ok_inv E st emb st' :
  embed E (PStr "dimension check") None false ∅ st = (Ok emb, st') ->
  exists s c v rest,
    self s = self st /\ _client (self st) = Some c /\
    remote_create E c (log s) (probe_request (model (self st)))
      = Ok (v :: rest) /\
    emb = Floats v /\
    st' = add_event (EvCreate (probe_request (model (self st)))) s.
Proof.
  intros H. unfold embed, retry in H.
  apply retry_loop_Ok_inv in H as (s & Hs & Hself & _);
    [|apply extends_deprecated_argument, extends_embed_body].
  exists s. unfold deprecated_argument in Hs. rewrite lookup_empty in Hs.
  unfold embed_body in Hs. simpl in Hs.
  unfold bind, ret, get_self, get_client, create, lift, pop_dtype in Hs.
  rewrite delete_empty in Hs.
  destruct (_client (self s)) as [c|] eqn:Hc; [|done]. simpl in Hs.
  destruct (remote_create E c (log s) _) as [[|v rest]|e] eqn:Hr; try done.
  simpl in Hs. injection Hs as <- <-.
  exists c, v, rest. rewrite <- Hself. unfold probe_request. by rewrite Hr.
Qed.

(** ** The constructor *)

Lemma dict_truthy_empty (d : kwargs_t) : dict_truthy d = false <-> d = ∅.
Proof.
  unfold dict_truthy. rewrite Bool.negb_false_iff, Nat.eqb_eq.
  apply map_size_empty_iff.
Qed.

Lemma base_init_Ok E mdl dt st :
  is_Some (dtype_itemsize E (PStr dt)) ->
  base_init E mdl dt st
    = (Ok tt, set_self {| model := mdl; dtype := dt; dims := None;
                          _client := None; _aclient := None |} st).
Proof. intros [w Hw]. unfold base_init. by rewrite Hw. Qed.

Lemma base_init_inv E mdl dt st r s0 :
  base_init E mdl dt st = (r, s0) ->
  log s0 = log st /\
  (r = Ok tt ->
   self s0 = {| model := mdl; dtype := dt; dims := None;
                _client := None; _aclient := None |}).
Proof.
  unfold base_init. destruct (dtype_itemsize E (PStr dt));
    intros [= <- <-]; by split.
Qed.

(** When the clients are initialised, the other fields are as before and
    the two clients are configured alike. *)
Lemma initialize_clients_Ok_inv E cfg kw st s1 :
  _initialize_clients E cfg kw st = (Ok tt, s1) ->
  model (self s1) = model (self st) /\ dims (self s1) = dims (self st) /\
  exists c, constructed c s1.
Proof.
  unfold _initialize_clients.
  set (d := match cfg with Some d => d | None => ∅ end).
  destruct (negb (openai_installed E)); [done|].
  unfold bind at 1. destruct (dict_truthy d).
  - unfold lift at 1, pop_api_key.
    destruct (d !! "api_key") as [k|]; [|done].
    destruct (negb (truthy k)); [done|].
    unfold bind, lift, set_client, set_aclient.
    destruct (new_client k (delete "api_key" d) kw) as [c|]; [|done].
    intros [= <-]. simpl. repeat split. by exists c.
  - unfold getenv, bind, emit, ret.
    destruct (negb (truthy _)); [done|].
    unfold lift, set_client, set_aclient.
    destruct (new_client _ d kw) as [c|]; [|done].
    intros [= <-]. simpl. repeat split. by exists c.
Qed.

(** With a configuration dictionary that is not empty, the initialisation of
    the clients does not look at the process environment. *)
Lemma initialize_clients_given_config E d kw st :
  dict_truthy d = true ->
  log (_initialize_clients E (Some d) kw st).2 = log st.
Proof.
  intros Hd. unfold _initialize_clients.
  destruct (negb (openai_installed E)); [done|].
  unfold bind at 1. rewrite Hd. unfold lift at 1, pop_api_key.
  destruct (d !! "api_key") as [k|]; [|done].
  destruct (negb (truthy k)); [done|].
  unfold bind, lift, set_client, set_aclient.
  by destruct (new_client k (delete "api_key" d) kw) as [c|].
Qed.

(** With a configuration dictionary that is not empty and has no key, the
    initialisation of the clients is a [KeyError]. *)
Lemma initialize_clients_no_key E d kw st :
  openai_installed E = true ->
  dict_truthy d = true -> d !! "api_key" = None ->
  _initialize_clients E (Some d) kw st = (Err (KeyError "'api_key'"), st).
Proof.
  intros Hi Hd Hk.
  unfold _initialize_clients, bind, lift, pop_api_key.
  by rewrite Hi, Hd, Hk.
Qed.

(** Without a configuration, or with an empty one, the key is read from the
    process environment. *)
Lemma initialize_clients_fallback E cfg kw st :
  openai_installed E = true ->
  cfg = None \/ cfg = Some ∅ ->
  getenvs_of (log (_initialize_clients E cfg kw st).2)
    = getenvs_of (log st) ++ ["OPENAI_API_KEY"].
Proof.
  intros Hi Hcfg.
  assert (_initialize_clients E cfg kw st = _initialize_clients E None kw st)
    as -> by (by destruct Hcfg as [->| ->]).
  unfold _initialize_clients. rewrite Hi. simpl.
  unfold bind at 1.
  rewrite (proj2 (dict_truthy_empty ∅) eq_refl).
  unfold getenv, bind, emit, ret.
  destruct (negb (truthy _)); simpl; [by rewrite getenvs_of_app|].
  unfold lift, set_client, set_aclient.
  match goal with
  | |- context [new_client ?k ?d ?o] => destruct (new_client k d o) as [c|]
  end; simpl; by rewrite getenvs_of_app.
Qed.

Lemma extends_set_model_dims E : extends is_embed_event (_set_model_dims E).
Proof.
  intros st. unfold _set_model_dims.
  destruct (extends_embed E (PStr "dimension check") None false ∅ st)
    as [Hs Hl].
  destruct (embed E (PStr "dimension check") None false ∅ st) as [[emb|e] s'];
    [done|].
  destruct (is_KeyError_or_IndexError e); [done|].
  by destruct (is_Exception e).
Qed.

(** The probe and the assignment of [dims] do not look at the process
    environment. *)
Lemma probe_step_getenvs E s1 :
  getenvs_of (log (bind (_set_model_dims E) set_dims s1).2)
    = getenvs_of (log s1).
Proof.
  unfold bind.
  destruct (extends_set_model_dims E s1) as [_ (evs & Hl & Hev)].
  destruct (_set_model_dims E s1) as [[d|e] s2]; simpl in *;
    rewrite Hl, getenvs_of_app, (embed_events_no_getenv _ Hev);
    by rewrite app_nil_r.
Qed.

Lemma init_unfold E mdl cfg dt kw st :
  __init__ E mdl cfg dt kw st =
  match base_init E mdl dt st with
  | (Ok _, s0) =>
      match _initialize_clients E cfg kw s0 with
      | (Ok _, s1) => bind (_set_model_dims E) set_dims s1
      | (Err e, s1) => (Err e, s1)
      end
  | (Err e, s0) => (Err e, s0)
  end.
Proof.
  unfold __init__. unfold bind at 1.
  destruct (base_init E mdl dt st) as [[[]|e] s0]; [|done].
  unfold bind at 1.
  by destruct (_initialize_clients E cfg kw s0) as [[[]|e] s1].
Qed.

Lemma init_given_config_getenvs E mdl d dt kw st :
  dict_truthy d = true ->
  getenvs_of (log (__init__ E mdl (Some d) dt kw st).2) = getenvs_of (log st).
Proof.
  intros Hd. rewrite init_unfold.
  destruct (base_init E mdl dt st) as [r s0] eqn:Hb.
  apply base_init_inv in Hb as [Hl0 _].
  destruct r as [[]|e]; simpl; [|by rewrite Hl0].
  pose proof (initialize_clients_given_config E d kw s0 Hd) as Hl1.
  destruct (_initialize_clients E (Some d) kw s0) as [[[]|e] s1];
    simpl in Hl1.
  - by rewrite probe_step_getenvs, Hl1, Hl0.
  - simpl. by rewrite Hl1, Hl0.
Qed.

(** C9. With [openai] installed and a valid [dtype], constructing the
    vectorizer with a non-empty [api_config] that has no ["api_key"] raises
    a [KeyError] and the trace has no new look at the environment.  Whenever
    the constructor looks at the environment, [api_config] is [None] or
    empty; and with [api_config] [None] or empty it looks at
    [OPENAI_API_KEY], once. *)
Theorem missing_api_key_is_a_key_error E mdl cfg dt kw st :
  (forall d,
     cfg = Some d -> d <> ∅ -> d !! "api_key" = None ->
     openai_installed E = true ->
     is_Some (dtype_itemsize E (PStr dt)) ->
     exists st',
       __init__ E mdl cfg dt kw st = (Err (KeyError "'api_key'"), st') /\
       getenvs_of (log st') = getenvs_of (log st)) /\
  (getenvs_of (log (__init__ E mdl cfg dt kw st).2) <> getenvs_of (log st) ->
   cfg = None \/ cfg = Some ∅) /\
  (cfg = None \/ cfg = Some ∅ ->
   openai_installed E = true ->
   is_Some (dtype_itemsize E (PStr dt)) ->
   getenvs_of (log (__init__ E mdl cfg dt kw st).2)
     = getenvs_of (log st) ++ ["OPENAI_API_KEY"]).
Proof.
  split; [|split].
  - intros d -> Hne Hk Hi Hdt.
    assert (dict_truthy d = true) as Hd.
    { destruct (dict_truthy d) eqn:Hd; [done|].
      by apply dict_truthy_empty in Hd. }
    eexists. split.
    + rewrite init_unfold, (base_init_Ok E mdl dt st Hdt).
      by rewrite (initialize_clients_no_key E d kw _ Hi Hd Hk).
    + done.
  - intros Hne. destruct cfg as [d|]; [|by left]. right. f_equal.
    apply dict_truthy_empty. destruct (dict_truthy d) eqn:Hd; [|done].
    by rewrite init_given_config_getenvs in Hne.
  - intros Hcfg Hi Hdt.
    rewrite init_unfold, (base_init_Ok E mdl dt st Hdt).
    pose proof (initialize_clients_fallback E cfg kw
                  (set_self {| model := mdl; dtype := dt; dims := None;
                               _client := None; _aclient := None |} st)
                  Hi Hcfg) as Hl.
    destruct (_initialize_clients E cfg kw _) as [[[]|e] s1]; simpl in Hl.
    + by rewrite probe_step_getenvs.
    + done.
Qed.

Lemma missing_api_key_is_a_key_error_witness :
  (exists st',
     __init__ Examples.env_up "text-embedding-ada-002"
       (Some {[ "organization" := PStr "org-1" ]}) "float32" ∅ Examples.blank
       = (Err (KeyError "'api_key'"), st') /\
     getenvs_of (log st') = getenvs_of (log Examples.blank)) /\
  getenvs_of (log (__init__ Examples.env_up "text-embedding-ada-002" None
                     "float32" ∅ Examples.blank).2)
    = getenvs_of (log Examples.blank) ++ ["OPENAI_API_KEY"].
Proof.
  split.
  - destruct (missing_api_key_is_a_key_error Examples.env_up
                "text-embedding-ada-002"
                (Some {[ "organization" := PStr "org-1" ]}) "float32" ∅
                Examples.blank) as (H & _ & _).
    apply (H _ eq_refl).
    + intros Hd. apply (f_equal (fun m : kwargs_t => m !! "organization")) in Hd.
      vm_compute in Hd. discriminate.
    + reflexivity.
    + reflexivity.
    + by exists 4.
  - destruct (missing_api_key_is_a_key_error Examples.env_up
                "text-embedding-ada-002" None "float32" ∅ Examples.blank)
      as (_ & _ & H).
    apply H.
    + by left.
    + reflexivity.
    + by exists 4.
Defined.

(** C10. When the dimension probe of the constructor fails, whatever the
    exception, [_set_model_dims] and the constructor raise a [ValueError]:
    no other exception leaves this step.  An exception of the probe reaches
    the handlers as a [TypeError] or, after the retries, as a [RetryError],
    so a [KeyError] or [IndexError] of the body is rewrapped as well. *)
Theorem failed_probe_is_a_value_error E mdl cfg dt kw st :
  (forall e st',
     embed E (PStr "dimension check") None false ∅ st = (Err e, st') ->
     _set_model_dims E st
       = (Err (ValueError ("Error setting embedding model dimensions: "
                           +:+ exn_str e)), st')) /\
  (forall e st', _set_model_dims E st = (Err e, st') -> is_ValueError e = true)
  /\
  (forall s1 e st',
     bind (base_init E mdl dt) (fun _ => _initialize_clients E cfg kw) st
       = (Ok tt, s1) ->
     embed E (PStr "dimension check") None false ∅ s1 = (Err e, st') ->
     __init__ E mdl cfg dt kw st
       = (Err (ValueError ("Error setting embedding model dimensions: "
                           +:+ exn_str e)), st')).
Proof.
  split; [|split].
  - apply set_model_dims_Err.
  - intros e st' H.
    destruct (embed E (PStr "dimension check") None false ∅ st)
      as [[emb|e0] s'] eqn:Hp.
    + by rewrite (set_model_dims_Ok _ _ _ _ Hp) in H.
    + rewrite (set_model_dims_Err _ _ _ _ Hp) in H. by injection H as <- <-.
  - intros s1 e st' Hpre Hp. rewrite init_unfold.
    unfold bind in Hpre.
    destruct (base_init E mdl dt st) as [[[]|e0] s0]; [|done].
    rewrite Hpre. unfold bind.
    by rewrite (set_model_dims_Err _ _ _ _ Hp).
Qed.

Lemma failed_probe_is_a_value_error_witness :
  let cfg : option kwargs_t := Some {[ "api_key" := PStr "sk-test" ]} in
  let s1 := (bind (base_init Examples.env_empty "text-embedding-ada-002"
                     "float32")
                  (fun _ => _initialize_clients Examples.env_empty cfg ∅)
                  Examples.blank).2 in
  let out := embed Examples.env_empty (PStr "dimension check") None false ∅
               s1 in
  __init__ Examples.env_empty "text-embedding-ada-002" cfg "float32" ∅
    Examples.blank
  = (Err (ValueError
            "Error setting embedding model dimensions: RetryError[list index out of range]"),
     out.2).
Proof.
  intros cfg s1 out.
  destruct (failed_probe_is_a_value_error Examples.env_empty
              "text-embedding-ada-002" cfg "float32" ∅ Examples.blank)
    as (_ & _ & H).
  apply (H s1 (RetryError (IndexError "list index out of range")) out.2).
  - vm_compute. reflexivity.
  - vm_compute. reflexivity.
Defined.

(** The handlers of [_set_model_dims] against a service that cannot be
    reached: the connection error comes back as a [ValueError]. *)
Example set_model_dims_when_down :
  (_set_model_dims Examples.env_down Examples.ready).1
  = Err (ValueError
           "Error setting embedding model dimensions: RetryError[Connection error.]").
Proof. vm_compute. reflexivity. Qed.

(** C5. When the constructor returns, [dims] is the length of the vector
    that the remote endpoint returned for the sentinel text: the field was
    unset until then and the assignment is the last step of the
    constructor.  No call of [embed], [embed_many], [aembed] or
    [aembed_many] changes the object, [dims] included. *)
Theorem dims_is_set_once_by_the_probe E st :
  (forall mdl cfg dt kw st',
     __init__ E mdl cfg dt kw st = (Ok tt, st') ->
     exists s c v rest,
       dims (self s) = None /\ _client (self s) = Some c /\
       remote_create E c (log s) (probe_request mdl) = Ok (v :: rest) /\
       st' = (set_dims (length v)
                (add_event (EvCreate (probe_request mdl)) s)).2 /\
       dims (self st') = Some (length v)) /\
  (forall text texts pre bs ab kw,
     self (embed E text pre ab kw st).2 = self st /\
     self (embed_many E texts pre bs ab kw st).2 = self st /\
     self (run_until_complete E (aembed E text pre ab kw) st).2 = self st /\
     self (run_until_complete E (aembed_many E texts pre bs ab kw) st).2
       = self st).
Proof.
  split.
  - intros mdl cfg dt kw st'. rewrite init_unfold.
    destruct (base_init E mdl dt st) as [[[]|e0] s0] eqn:Hb; [|done].
    apply base_init_inv in Hb as [_ Hs0]. specialize (Hs0 eq_refl).
    destruct (_initialize_clients E cfg kw s0) as [[[]|e1] s1] eqn:Hi; [|done].
    apply initialize_clients_Ok_inv in Hi as (Hm & Hd & _).
    rewrite Hs0 in Hm, Hd. simpl in Hm, Hd.
    unfold bind.
    destruct (embed E (PStr "dimension check") None false ∅ s1)
      as [[emb|e] s2] eqn:Hp.
    + rewrite (set_model_dims_Ok _ _ _ _ Hp).
      apply probe_Ok_inv in Hp as (s & c & v & rest & Hs & Hc & Hr & -> & ->).
      intros [= <-]. exists s, c, v, rest. rewrite Hm in Hr.
      unfold set_dims. simpl. rewrite Hs, Hm. by repeat split.
    + by rewrite (set_model_dims_Err _ _ _ _ Hp).
  - intros text texts pre bs ab kw. repeat split.
    + apply extends_embed.
    + apply extends_embed_many.
    + apply extends_run_aembed.
    + apply extends_run_aembed_many.
Qed.

Lemma dims_is_set_once_by_the_probe_witness :
  exists s c v rest,
    dims (self s) = None /\ _client (self s) = Some c /\
    remote_create Examples.env_up c (log s)
      (probe_request "text-embedding-ada-002") = Ok (v :: rest) /\
    (__init__ Examples.env_up "text-embedding-ada-002"
       (Some {[ "api_key" := PStr "sk-test" ]}) "float32" ∅ Examples.blank).2
      = (set_dims (length v)
           (add_event (EvCreate (probe_request "text-embedding-ada-002")) s)).2
    /\ dims (self (__init__ Examples.env_up "text-embedding-ada-002"
                     (Some {[ "api_key" := PStr "sk-test" ]}) "float32" ∅
                     Examples.blank).2) = Some (length v).
Proof.
  destruct (dims_is_set_once_by_the_probe Examples.env_up Examples.blank)
    as [H _].
  apply (H "text-embedding-ada-002"
           (Some {[ "api_key" := PStr "sk-test" ]}) "float32" ∅).
  vm_compute. reflexivity.
Defined.

(** The constructor against the example service: the dimension is 3. *)
Example init_sets_dims :
  dims (self (__init__ Examples.env_up "text-embedding-ada-002"
                (Some {[ "api_key" := PStr "sk-test" ]}) "float32" ∅
                Examples.blank).2) = Some 3.
Proof. vm_compute. reflexivity. Qed.

(** * Further properties of the code *)

(** ** The retry loop, whatever the body does *)

Lemma retry_loop_bounded {A} (fn : M A) :
  extends is_call_event fn ->
  forall k n st,
    exists j, j <= k /\
      attempts_of (log (retry_loop k n fn st).2)
        = attempts_of (log st) ++ seq n (S j) /\
      sleeps_of (log (retry_loop k n fn st).2)
        = sleeps_of (log st) ++ map wait_high (seq n j).
Proof.
  intros Hext. induction k as [|k IH]; intros n st;
    rewrite retry_loop_unfold;
    destruct (Hext (add_event (EvAttempt n) st)) as [_ (evs & Hl & Hev)];
    destruct (call_events_no_attempt _ Hev) as [Ha Hs];
    destruct (fn (add_event (EvAttempt n) st)) as [[a|e] st1]; simpl in *.
  1,2,3: try destruct (retry_if_not_TypeError e); simpl;
    exists 0; (split; [lia|]);
    rewrite Hl, !attempts_of_app, !sleeps_of_app, Ha, Hs; simpl;
    by rewrite !app_nil_r.
  destruct (retry_if_not_TypeError e); simpl.
  - destruct (IH (S n) (add_event (EvSleep (wait_high n)) st1))
      as (j & Hj & Hatt & Hsl).
    exists (S j). split; [lia|]. rewrite Hatt, Hsl. simpl. rewrite Hl.
    rewrite !attempts_of_app, !sleeps_of_app, Ha, Hs. simpl.
    by rewrite !app_nil_r, <- !app_assoc.
  - exists 0. split; [lia|].
    rewrite Hl, !attempts_of_app, !sleeps_of_app, Ha, Hs. simpl.
    by rewrite !app_nil_r.
Qed.

Lemma retry_bounded {A} kw (fn : M A) st :
  extends is_call_event fn ->
  exists j, j <= 5 /\
    attempts_of (log (retry (deprecated_argument "dtype" kw fn) st).2)
      = attempts_of (log st) ++ seq 1 (S j) /\
    sleeps_of (log (retry (deprecated_argument "dtype" kw fn) st).2)
      = sleeps_of (log st) ++ take j [1; 2; 4; 8; 16]%Z.
Proof.
  intros Hext.
  destruct (retry_loop_bounded _ (extends_deprecated_argument "dtype" kw fn Hext)
              (stop_after_attempt - 1) 1 st) as (j & Hj & Ha & Hs).
  exists j. split; [exact Hj|]. split; [exact Ha|].
  unfold retry. rewrite Hs. f_equal. simpl in Hj.
  do 6 (destruct j as [|j]; [reflexivity|]). lia.
Qed.

(** X1. Whatever the remote endpoint, the preprocessing and the input do, a
    call of [embed], [embed_many], [aembed] or [aembed_many] runs its body
    at least once and at most six times, numbered from 1, and sleeps only
    between two runs, with the bounds 1, 2, 4, 8, 16 seconds in this order:
    the cap of 60 seconds is never reached. *)
Theorem calls_make_at_most_six_attempts E st text texts pre bs ab kw :
  let bounded {A} (out : res A * state) :=
    exists j, j <= 5 /\
      attempts_of (log out.2) = attempts_of (log st) ++ seq 1 (S j) /\
      sleeps_of (log out.2)
        = sleeps_of (log st) ++ take j [1; 2; 4; 8; 16]%Z in
  bounded (embed E text pre ab kw st) /\
  bounded (embed_many E texts pre bs ab kw st) /\
  bounded (run_until_complete E (aembed E text pre ab kw) st) /\
  bounded (run_until_complete E (aembed_many E texts pre bs ab kw) st).
Proof.
  intros bounded. split; [|split; [|split]].
  - apply retry_bounded, extends_embed_body.
  - apply retry_bounded, extends_embed_many_body.
  - unfold bounded, aembed. rewrite run_decorated.
    apply retry_bounded, extends_run_aembed_body.
  - unfold bounded, aembed_many. rewrite run_decorated.
    apply retry_bounded, extends_run_aembed_many_body.
Qed.

(** ** What the entry points send *)

(** A step that makes no remote call. *)
Ltac quiet :=
  unfold sent; simpl; split; [done|]; exists []; rewrite ?app_nil_r;
  split; [done | constructor].

Lemma sent_one_more Q {A} st req (out : res A * state) :
  Q req ->
  sent Q (add_event (EvCreate req) st) out -> sent Q st out.
Proof.
  intros HQ [Hs (reqs & Hl & Hreqs)]. simpl in Hs, Hl.
  split; [done|]. exists (req :: reqs).
  rewrite Hl, creates_of_app. simpl. rewrite <- app_assoc.
  split; [done | by constructor].
Qed.

Lemma sent_other_event Q {A} st e (out : res A * state) :
  match e with EvCreate _ => False | _ => True end ->
  sent Q (add_event e st) out -> sent Q st out.
Proof.
  intros He [Hs (reqs & Hl & Hreqs)]. simpl in Hs, Hl.
  split; [done|]. exists reqs. rewrite Hl, creates_of_app.
  destruct e; try done; simpl; by rewrite app_nil_r.
Qed.

Lemma sent_trans Q {A B} st (mid : res A * state) (out : res B * state) :
  sent Q st mid -> sent Q mid.2 out -> sent Q st out.
Proof.
  intros [Hs (reqs & Hl & HQ)] [Hs' (reqs' & Hl' & HQ')].
  split; [congruence|]. exists (reqs ++ reqs').
  rewrite Hl', Hl, app_assoc. split; [done|]. by apply Forall_app.
Qed.

Lemma sends_embed_many_loop E batches ab dt kw acc :
  sends (fun s r => r_model r = model s /\ r_kwargs r = kw)
        (embed_many_loop E batches ab dt kw acc).
Proof.
  revert acc. induction batches as [|b rest IH]; intros acc st.
  - quiet.
  - simpl. unfold bind at 1, lift at 1.
    destruct b as [batch|e]; [|quiet].
    unfold bind at 1, get_client at 1.
    destruct (_client (self st)) as [c|]; [|quiet].
    unfold bind at 1, get_self at 1. unfold bind at 1, create at 1.
    set (req := {| r_input := batch; r_model := model (self st);
                   r_kwargs := kw |}).
    apply sent_one_more with req; [done|].
    destruct (remote_create E c (log st) req) as [resp|e]; [|quiet].
    unfold bind at 1, lift at 1.
    destruct (res_map _ resp) as [new|e]; [|quiet].
    apply (IH (acc ++ new) (add_event (EvCreate req) st)).
Qed.

Lemma sends_embed_many_body E texts pre bs ab kw :
  sends (request_of_call kw) (embed_many_body E texts pre bs ab kw).
Proof.
  intros st. unfold embed_many_body.
  destruct texts; try quiet.
  match goal with |- context [if ?c then _ else _] => destruct c end;
    [quiet|].
  unfold bind, get_self, pop_dtype.
  apply (sends_embed_many_loop E _ ab _ (delete "dtype" kw) [] st).
Qed.

Lemma sends_embed_body E text pre ab kw :
  sends (request_of_call kw) (embed_body E text pre ab kw).
Proof.
  intros st. unfold embed_body.
  destruct (negb (isinstance_str text)); [quiet|].
  unfold bind at 1.
  assert (match pre with Some f => lift (f text) | None => ret text end st
          = (match pre with Some f => f text | None => Ok text end, st))
    as -> by (by destruct pre).
  destruct (match pre with Some f => f text | None => Ok text end) as [t|e];
    [|quiet].
  unfold bind at 1, get_self at 1, pop_dtype.
  unfold bind at 1, get_client at 1.
  destruct (_client (self st)) as [c|]; [|quiet].
  unfold bind at 1, get_self at 1. unfold bind at 1, create at 1.
  set (req := {| r_input := [t]; r_model := model (self st);
                 r_kwargs := delete "dtype" kw |}).
  apply sent_one_more with req; [done|].
  destruct (remote_create E c (log st) req) as [[|r resp]|e]; quiet.
Qed.

Lemma sends_ext Q {A} (m m' : M A) :
  (forall st, m st = m' st) -> sends Q m' -> sends Q m.
Proof. intros Heq Hm st. rewrite Heq. apply Hm. Qed.

Lemma sends_deprecated_argument Q {A} arg kw (fn : M A) :
  sends Q fn -> sends Q (deprecated_argument arg kw fn).
Proof.
  intros Hfn st. unfold deprecated_argument. destruct (kw !! arg); [|done].
  unfold bind, emit. apply sent_other_event with (EvWarn arg); [done|].
  apply (Hfn (add_event (EvWarn arg) st)).
Qed.

Lemma sends_retry_loop Q {A} (fn : M A) k n :
  sends Q fn -> sends Q (retry_loop k n fn).
Proof.
  intros Hfn. revert n. induction k as [|k IH]; intros n st;
    rewrite retry_loop_unfold;
    apply sent_other_event with (EvAttempt n); try done;
    pose proof (Hfn (add_event (EvAttempt n) st)) as Hrun;
    simpl in Hrun;
    destruct (fn (add_event (EvAttempt n) st)) as [[a|e] st1]; try done.
  - by destruct (retry_if_not_TypeError e).
  - destruct (retry_if_not_TypeError e); [|done].
    eapply sent_trans; [exact Hrun|]. simpl.
    apply sent_other_event with (EvSleep (wait_high n)); [done|].
    destruct Hrun as [Hs _]. simpl in Hs. rewrite <- Hs.
    apply (IH (S n) (add_event (EvSleep (wait_high n)) st1)).
Qed.

Lemma sends_run_aembed_many_loop E batches ab dt kw acc :
  sends (fun s r => r_model r = model s /\ r_kwargs r = kw)
        (run_until_complete E (aembed_many_loop E batches ab dt kw acc)).
Proof.
  revert acc. induction batches as [|b rest IH]; intros acc st.
  - quiet.
  - simpl. unfold co_bind, co_lift, get_aclient. simpl.
    destruct b as [batch|e]; [|quiet]. simpl.
    destruct (_aclient (self st)) as [c|]; [|quiet]. simpl.
    set (req := {| r_input := batch; r_model := model (self st);
                   r_kwargs := kw |}).
    apply sent_one_more with req; [done|].
    destruct (remote_create E c (log st) req) as [resp|e]; [|quiet]. simpl.
    destruct (res_map _ resp) as [new|e]; [|quiet]. simpl.
    apply (IH (acc ++ new) (add_event (EvCreate req) st)).
Qed.

Lemma sends_run_aembed_many_body E texts pre bs ab kw :
  sends (request_of_call kw)
        (run_until_complete E (aembed_many_body E texts pre bs ab kw)).
Proof.
  intros st. unfold aembed_many_body.
  destruct texts; try quiet.
  match goal with |- context [if ?c then _ else _] => destruct c end;
    [quiet|].
  simpl. unfold pop_dtype.
  apply (sends_run_aembed_many_loop E _ ab _ (delete "dtype" kw) [] st).
Qed.

Lemma sends_run_aembed_body E text pre ab kw :
  sends (request_of_call kw)
        (run_until_complete E (aembed_body E text pre ab kw)).
Proof.
  intros st. unfold aembed_body.
  destruct (negb (isinstance_str text)); [quiet|].
  unfold co_bind, co_lift, co_ret, get_aclient, pop_dtype.
  assert (forall (k : res pyval -> coro embedding),
            sent (request_of_call kw (self st)) st
              (run_until_complete E
                 (k match pre with Some f => f text | None => Ok text end) st)
            -> sent (request_of_call kw (self st)) st
                 (run_until_complete E
                    (co_then match pre with
                             | Some f => CDone (f text)
                             | None => CDone (Ok text)
                             end k) st)) as Hpre
    by (intros k; by destruct pre).
  apply Hpre. clear Hpre.
  destruct (match pre with Some f => f text | None => Ok text end) as [t|e];
    [|quiet]. simpl.
  destruct (_aclient (self st)) as [c|]; [|quiet]. simpl.
  set (req := {| r_input := [t]; r_model := model (self st);
                 r_kwargs := delete "dtype" kw |}).
  apply sent_one_more with req; [done|].
  destruct (remote_create E c (log st) req) as [[|r resp]|e]; quiet.
Qed.

Lemma sends_decorated Q {A} kw (fn : M A) :
  sends Q fn -> sends Q (retry (deprecated_argument "dtype" kw fn)).
Proof. intros H. by apply sends_retry_loop, sends_deprecated_argument. Qed.

(** X5. Whatever happens during a call of [embed], [embed_many], [aembed] or
    [aembed_many], and however often it is retried, every request it sends
    to the remote endpoint names the model of the vectorizer and carries the
    caller's keyword arguments without [dtype]: the deprecated [dtype]
    argument never reaches the endpoint. *)
Theorem requests_name_the_model_and_drop_dtype E st text texts pre bs ab kw :
  sent (request_of_call kw (self st)) st (embed E text pre ab kw st) /\
  sent (request_of_call kw (self st)) st
       (embed_many E texts pre bs ab kw st) /\
  sent (request_of_call kw (self st)) st
       (run_until_complete E (aembed E text pre ab kw) st) /\
  sent (request_of_call kw (self st)) st
       (run_until_complete E (aembed_many E texts pre bs ab kw) st).
Proof.
  split; [|split; [|split]].
  - apply sends_decorated, sends_embed_body.
  - apply sends_decorated, sends_embed_many_body.
  - unfold aembed. rewrite run_decorated.
    apply sends_decorated, sends_run_aembed_body.
  - unfold aembed_many. rewrite run_decorated.
    apply sends_decorated, sends_run_aembed_many_body.
Qed.

(** A call with the deprecated argument against the example service: the
    request has no [dtype]. *)
Example dtype_is_not_sent :
  creates_of (log (embed Examples.env_up (PStr "a") None true
                     {[ "dtype" := PStr "float64" ]} Examples.ready).2)
  = [batch_request "text-embedding-ada-002" ∅ [PStr "a"]].
Proof. vm_compute. reflexivity. Qed.

(** ** One text *)

(** The body of [embed] on a string, with a client and a preprocessing that
    does not raise: one remote call, whose answer decides the outcome. *)
Lemma embed_body_run E c text pre g ab kw s :
  _client (self s) = Some c ->
  isinstance_str text = true ->
  preprocess_as pre g ->
  let req := {| r_input := [g text]; r_model := model (self s);
                r_kwargs := delete "dtype" kw |} in
  embed_body E text pre ab kw s =
  (match remote_create E c (log s) req with
   | Ok [] => Err (IndexError "list index out of range")
   | Ok (r :: _) =>
       _process_embedding E r ab (pop_dtype kw (dtype (self s))).1
   | Err e => Err e
   end, add_event (EvCreate req) s).
Proof.
  intros Hc Hstr Hpre req. unfold embed_body. rewrite Hstr. simpl.
  unfold bind at 1.
  assert (match pre with Some f => lift (f text) | None => ret text end s
          = (Ok (g text), s)) as ->.
  { destruct pre as [f|]; simpl in Hpre; unfold lift, ret; by rewrite Hpre. }
  unfold bind at 1, get_self at 1, pop_dtype.
  unfold bind at 1, get_client at 1. rewrite Hc.
  unfold bind at 1, get_self at 1. unfold bind at 1, create at 1.
  fold req. by destruct (remote_create E c (log s) req) as [[|r resp]|e].
Qed.

(** X3. On a constructed vectorizer, [embed] (and [aembed]) of a string
    sends one request, for the preprocessed text alone, in one attempt; when
    the endpoint answers with at least one vector, the call returns the first
    one in the requested output form.  Neither the result of the
    preprocessing nor the number of vectors of the answer is checked. *)
Theorem embed_returns_the_first_vector E c st text pre g ab kw v rest :
  constructed c st ->
  isinstance_str text = true ->
  preprocess_as pre g ->
  output_form_ok E ab (pop_dtype kw (dtype (self st))).1 ->
  let st1 := warned kw (add_event (EvAttempt 1) st) in
  let req := {| r_input := [g text]; r_model := model (self st);
                r_kwargs := delete "dtype" kw |} in
  remote_create E c (log st1) req = Ok (v :: rest) ->
  exists e,
    _process_embedding E v ab (pop_dtype kw (dtype (self st))).1 = Ok e /\
    embed E text pre ab kw st = (Ok e, add_event (EvCreate req) st1) /\
    run_until_complete E (aembed E text pre ab kw) st
      = (Ok e, add_event (EvCreate req) st1).
Proof.
  intros Hcon Hstr Hpre Hok st1 req Hr.
  destruct (process_embedding_total E ab _ v Hok) as [e He].
  exists e. split; [done|].
  assert (embed E text pre ab kw st = (Ok e, add_event (EvCreate req) st1))
    as Hsync.
  { unfold embed, retry. apply retry_loop_Ok.
    rewrite deprecated_argument_warned. fold st1.
    destruct (warned_frame kw (add_event (EvAttempt 1) st)) as (Hs & _).
    fold st1 in Hs. simpl in Hs.
    rewrite (embed_body_run E c text pre g ab kw st1);
      [|by rewrite Hs; apply Hcon|done|done].
    rewrite Hs. fold req. by rewrite Hr, He. }
  split; [done|]. by rewrite (run_aembed_is_embed E c).
Qed.

Lemma embed_returns_the_first_vector_witness :
  let st1 := add_event (EvAttempt 1) Examples.ready in
  let req := {| r_input := [PStr "hello"];
                r_model := "text-embedding-ada-002";
                r_kwargs := delete "dtype" ∅ |} in
  exists e,
    _process_embedding Examples.env_up Examples.v3 false (PStr "float32")
      = Ok e /\
    embed Examples.env_up (PStr "hello") None false ∅ Examples.ready
      = (Ok e, add_event (EvCreate req) st1) /\
    run_until_complete Examples.env_up
      (aembed Examples.env_up (PStr "hello") None false ∅) Examples.ready
      = (Ok e, add_event (EvCreate req) st1).
Proof.
  exact (embed_returns_the_first_vector Examples.env_up Examples.a_client
           Examples.ready (PStr "hello") None (fun x => x) false ∅
           Examples.v3 [] (conj eq_refl eq_refl) eq_refl (fun x => eq_refl)
           (fun H => False_ind _ (Bool.diff_false_true H)) eq_refl).
Defined.

(** The body of [embed_many] on a list of one text, with a client, a
    positive batch size and a preprocessing that does not raise: the request
    of [embed] for this text. *)
Lemma embed_many_body_singleton E c text pre g bs ab kw s :
  _client (self s) = Some c ->
  isinstance_str text = true ->
  (0 < bs)%Z ->
  preprocess_as pre g ->
  let req := {| r_input := [g text]; r_model := model (self s);
                r_kwargs := delete "dtype" kw |} in
  embed_many_body E (PList [text]) pre bs ab kw s =
  (match remote_create E c (log s) req with
   | Ok resp =>
       res_map (fun r => _process_embedding E r ab
                           (pop_dtype kw (dtype (self s))).1) resp
   | Err e => Err e
   end, add_event (EvCreate req) s).
Proof.
  intros Hc Hstr Hbs Hpre req. unfold embed_many_body. rewrite Hstr. simpl.
  unfold bind at 1, get_self at 1, pop_dtype.
  rewrite (batchify_chunks [text] bs pre g Hbs Hpre). simpl.
  assert (take (Z.to_nat bs) [g text] = [g text]) as ->.
  { destruct (Z.to_nat bs) eqn:Hn; [lia | by destruct n]. }
  unfold bind at 1, lift at 1. unfold bind at 1, get_client at 1. rewrite Hc.
  unfold bind at 1, get_self at 1. unfold bind at 1, create at 1. fold req.
  destruct (remote_create E c (log s) req) as [resp|e]; [|done].
  unfold bind, lift, ret.
  by destruct (res_map _ resp).
Qed.

(** X4. On a constructed vectorizer and for a positive batch size, when the
    endpoint answers the request for one text with exactly one vector,
    [embed_many] of the list of this one text returns the list of the one
    embedding that [embed] returns for the text, and leaves the same trace:
    the same single request, in one attempt. *)
Theorem embed_many_of_one_text_is_embed E c st text pre g bs ab kw v :
  constructed c st ->
  isinstance_str text = true ->
  (0 < bs)%Z ->
  preprocess_as pre g ->
  output_form_ok E ab (pop_dtype kw (dtype (self st))).1 ->
  remote_create E c (log (warned kw (add_event (EvAttempt 1) st)))
    {| r_input := [g text]; r_model := model (self st);
       r_kwargs := delete "dtype" kw |} = Ok [v] ->
  exists e st',
    embed E text pre ab kw st = (Ok e, st') /\
    embed_many E (PList [text]) pre bs ab kw st = (Ok [e], st').
Proof.
  intros Hcon Hstr Hbs Hpre Hok Hr.
  set (st1 := warned kw (add_event (EvAttempt 1) st)) in *.
  destruct (warned_frame kw (add_event (EvAttempt 1) st)) as (Hs & _).
  fold st1 in Hs. simpl in Hs.
  destruct (process_embedding_total E ab _ v Hok) as [e He].
  exists e. eexists. split.
  - unfold embed, retry. apply retry_loop_Ok.
    rewrite deprecated_argument_warned. fold st1.
    rewrite (embed_body_run E c text pre g ab kw st1);
      [|by rewrite Hs; apply Hcon|done|done].
    rewrite Hs, Hr, He. reflexivity.
  - unfold embed_many, retry. apply retry_loop_Ok.
    rewrite deprecated_argument_warned. fold st1.
    rewrite (embed_many_body_singleton E c text pre g bs ab kw st1);
      [|by rewrite Hs; apply Hcon|done|done|done].
    rewrite Hs, Hr. cbn [res_map]. rewrite He. reflexivity.
Qed.

Lemma embed_many_of_one_text_is_embed_witness :
  exists e st',
    embed Examples.env_up (PStr "hello") None true ∅ Examples.ready
      = (Ok e, st') /\
    embed_many Examples.env_up (PList [PStr "hello"]) None 10 true ∅
      Examples.ready = (Ok [e], st').
Proof.
  apply (embed_many_of_one_text_is_embed Examples.env_up Examples.a_client
           Examples.ready (PStr "hello") None (fun x => x) 10 true ∅
           Examples.v3 (conj eq_refl eq_refl) eq_refl eq_refl
           (fun x => eq_refl)).
  - intros _. by exists 4.
  - reflexivity.
Defined.

(** ** Lists *)

Lemma concat_batch_requests mdl kw (batches : list (list pyval)) :
  concat (map r_input (map (batch_request mdl kw) batches)) = concat batches.
Proof. induction batches as [|b bs IH]; [done|]. simpl. by rewrite IH. Qed.

(** X14. Only the first element of the list is checked.  On a constructed
    vectorizer, for a positive batch size and against a service that
    answers with one vector per input, every list that is empty or starts
    with a string is accepted: each of its (preprocessed) elements, string
    or not, is sent to the endpoint, in order, and the call returns one
    embedding per element. *)
Theorem every_element_after_a_string_is_sent
    E R c st items pre g bs ab kw :
  constructed c st ->
  rejected_texts (PList items) = false ->
  (0 < bs)%Z ->
  preprocess_as pre g ->
  remote_answers E R ->
  output_form_ok E ab (pop_dtype kw (dtype (self st))).1 ->
  exists embs st' reqs,
    embed_many E (PList items) pre bs ab kw st = (Ok embs, st') /\
    creates_of (log st') = creates_of (log st) ++ reqs /\
    concat (map r_input reqs) = map g items /\
    length embs = length items.
Proof.
  intros [Hc _] Hacc Hbs Hpre Hrem Hok.
  destruct (embed_many_ok E R c st items pre g bs ab kw Hc Hacc Hbs Hpre
              Hrem Hok) as (embs & st' & Hcall & HF & _ & Hcr).
  exists embs, st'. eexists. split; [done|]. split; [exact Hcr|]. split.
  - rewrite concat_batch_requests.
    apply chunks_concat; [lia | by rewrite length_map].
  - apply Forall2_length in HF. by rewrite length_map in HF.
Qed.

Lemma every_element_after_a_string_is_sent_witness :
  let items := [PStr "a"; PInt 1; PNone] in
  exists embs st' reqs,
    embed_many Examples.env_up (PList items) None 2 false ∅ Examples.ready
      = (Ok embs, st') /\
    creates_of (log st') = creates_of (log Examples.ready) ++ reqs /\
    concat (map r_input reqs) = items /\
    length embs = 3.
Proof.
  intros items.
  exact (every_element_after_a_string_is_sent Examples.env_up _
           Examples.a_client Examples.ready items None (fun x => x) 2 false ∅
           (conj eq_refl eq_refl) eq_refl eq_refl (fun x => eq_refl)
           env_up_answers (fun H => False_ind _ (Bool.diff_false_true H))).
Defined.

(** ** An answer without data *)

(** A function that fails in the same way on every state of the object, with
    one remote call each time, is called once per attempt. *)
Lemma retry_loop_always_fails {A} (fn : M A) v e req :
  is_TypeError e = false ->
  (forall s, self s = v ->
     exists s', fn s = (Err e, s') /\ self s' = v /\
                creates_of (log s') = creates_of (log s) ++ [req]) ->
  forall k n st, self st = v ->
    exists st',
      retry_loop k n fn st = (Err (RetryError e), st') /\
      creates_of (log st') = creates_of (log st) ++ replicate (S k) req.
Proof.
  intros He Hfn. induction k as [|k IH]; intros n st Hst;
    rewrite retry_loop_unfold;
    destruct (Hfn (add_event (EvAttempt n) st) Hst) as (s1 & -> & Hs1 & Hl1);
    simpl in Hl1; rewrite creates_of_app in Hl1; simpl in Hl1;
    rewrite app_nil_r in Hl1;
    unfold retry_if_not_TypeError; rewrite He; simpl.
  - by exists s1.
  - destruct (IH (S n) (add_event (EvSleep (wait_high n)) s1) Hs1)
      as (st' & -> & Hl').
    exists st'. split; [done|]. rewrite Hl'. simpl.
    rewrite creates_of_app, Hl1. simpl.
    by rewrite app_nil_r, <- app_assoc.
Qed.

(** X11. When the endpoint answers every request with an empty [data] list,
    [embed] of a string on a constructed vectorizer finds no first element:
    the [IndexError] is not a [TypeError], so the same request is sent six
    times and the call ends with a [RetryError] that carries the
    [IndexError]. *)
Theorem an_answer_without_data_is_retried E c st text pre g ab kw :
  constructed c st ->
  isinstance_str text = true ->
  preprocess_as pre g ->
  (forall c lg req, remote_create E c lg req = Ok []) ->
  exists st',
    embed E text pre ab kw st
      = (Err (RetryError (IndexError "list index out of range")), st') /\
    creates_of (log st')
      = creates_of (log st)
        ++ replicate 6 {| r_input := [g text]; r_model := model (self st);
                          r_kwargs := delete "dtype" kw |}.
Proof.
  intros [Hc _] Hstr Hpre Hrem. unfold embed, retry.
  apply retry_loop_always_fails with (v := self st); [done| |done].
  intros s Hs. rewrite deprecated_argument_warned.
  destruct (warned_frame kw s) as (Hw & _ & _ & Hcr).
  rewrite (embed_body_run E c text pre g ab kw (warned kw s));
    [|by rewrite Hw, Hs|done|done].
  rewrite Hrem, Hw, Hs. eexists. split; [done|]. simpl.
  split; [congruence|]. by rewrite creates_of_app, Hcr.
Qed.

Lemma an_answer_without_data_is_retried_witness :
  exists st',
    embed Examples.env_empty (PStr "a") None false ∅ Examples.ready
      = (Err (RetryError (IndexError "list index out of range")), st') /\
    creates_of (log st')
      = creates_of (log Examples.ready)
        ++ replicate 6 {| r_input := [PStr "a"];
                          r_model := "text-embedding-ada-002";
                          r_kwargs := delete "dtype" ∅ |}.
Proof.
  exact (an_answer_without_data_is_retried Examples.env_empty
           Examples.a_client Examples.ready (PStr "a") None (fun x => x)
           false ∅ (conj eq_refl eq_refl) eq_refl (fun x => eq_refl)
           (fun _ _ _ => eq_refl)).
Defined.

(** ** A failure that passes *)

(** The loop over the batches, when the service answers from the present
    trace on. *)
Lemma embed_many_loop_ok_on E (I : list event -> Prop) R c ab dt kw :
  (forall lg e, I lg -> I (lg ++ [e])) ->
  (forall lg req, I lg ->
     exists vs, remote_create E c lg req = Ok vs /\
                Forall2 R (r_input req) vs) ->
  output_form_ok E ab dt ->
  forall batches acc st,
    _client (self st) = Some c -> I (log st) ->
    exists new st',
      embed_many_loop E (map Ok batches) ab dt kw acc st
        = (Ok (acc ++ new), st') /\
      Forall2 (fun x e => exists v, R x v /\ _process_embedding E v ab dt = Ok e)
              (concat batches) new /\
      self st' = self st /\
      log st' = log st
                ++ map (fun b => EvCreate (batch_request (model (self st)) kw b))
                       batches.
Proof.
  intros HI Hrem Hok. induction batches as [|b rest IH]; intros acc st Hc Hst.
  - exists [], st. simpl. rewrite !app_nil_r. repeat split; constructor.
  - simpl. unfold bind at 1, lift at 1. unfold bind at 1, get_client at 1.
    rewrite Hc. unfold bind at 1, get_self at 1. unfold bind at 1, create at 1.
    destruct (Hrem (log st)
                {| r_input := b; r_model := model (self st); r_kwargs := kw |}
                Hst) as (vs & -> & HR).
    destruct (res_map_Forall2 (fun r => _process_embedding E r ab dt) vs)
      as (new & Hnew & HF); [intros v; by apply process_embedding_total|].
    unfold bind at 1, lift at 1. rewrite Hnew.
    destruct (IH (acc ++ new) (add_event (EvCreate
                {| r_input := b; r_model := model (self st); r_kwargs := kw |}) st))
      as (new' & st' & Hloop & HF' & Hs & Hl); [done|by apply HI|].
    exists (new ++ new'), st'. rewrite Hloop, app_assoc.
    split; [done|]. split; [|split; [done|]].
    + apply Forall2_app; [|done]. simpl in HR.
      clear -HR HF. revert new HF. induction HR as [|x v xs vs' Hxv _ IHR];
        intros new HF; inversion HF; subst; constructor; eauto.
    + rewrite Hl. simpl. by rewrite <- app_assoc.
Qed.

Lemma create_events_no_attempt (h : list pyval -> request) l :
  attempts_of (map (fun b => EvCreate (h b)) l) = [] /\
  sleeps_of (map (fun b => EvCreate (h b)) l) = [].
Proof. induction l as [|b l IH]; [done|]. exact IH. Qed.

Lemma sleeps_stay lg e : sleeps_of lg <> [] -> sleeps_of (lg ++ [e]) <> [].
Proof.
  intros H. rewrite sleeps_of_app. by destruct (sleeps_of lg).
Qed.

(** X2. A retry starts the whole list again.  When the endpoint cannot be
    reached during the first attempt and answers each text with its vector
    once the caller has slept, [embed_many] of a non-empty list of strings
    fails on its first batch, sleeps once, and in its second attempt sends
    every batch from the first one on: the call returns one embedding per
    text, in input order, and nothing of the failed attempt. *)
Theorem embed_many_starts_again_after_a_failure
    E c st x items pre g bs ab kw f e0 :
  constructed c st ->
  Forall (fun t => isinstance_str t = true) (x :: items) ->
  (0 < bs)%Z ->
  preprocess_as pre g ->
  output_form_ok E ab (pop_dtype kw (dtype (self st))).1 ->
  sleeps_of (log st) = [] ->
  is_TypeError e0 = false ->
  (forall c lg req, sleeps_of lg = [] -> remote_create E c lg req = Err e0) ->
  (forall c lg req, sleeps_of lg <> [] ->
     remote_create E c lg req = Ok (map f (r_input req))) ->
  let batches :=
    chunks (S (length items)) (Z.to_nat bs) (map g (x :: items)) in
  let req := batch_request (model (self st)) (delete "dtype" kw) in
  exists embs st',
    embed_many E (PList (x :: items)) pre bs ab kw st = (Ok embs, st') /\
    Forall2 (fun t e =>
               _process_embedding E (f (g t)) ab
                 (pop_dtype kw (dtype (self st))).1 = Ok e)
            (x :: items) embs /\
    attempts_of (log st') = attempts_of (log st) ++ [1; 2] /\
    sleeps_of (log st') = [1%Z] /\
    creates_of (log st')
      = creates_of (log st)
        ++ req (take (Z.to_nat bs) (map g (x :: items))) :: map req batches.
Proof.
  intros [Hc _] Hstr Hbs Hpre Hok Hsl He0 Hfail Hanswer batches req.
  set (dt := (pop_dtype kw (dtype (self st))).1) in *.
  (* the first attempt *)
  set (st1 := warned kw (add_event (EvAttempt 1) st)).
  destruct (warned_frame kw (add_event (EvAttempt 1) st))
    as (Hs1 & Ha1 & Hsl1 & Hcr1). fold st1 in Hs1, Ha1, Hsl1, Hcr1.
  simpl in Hs1, Ha1, Hsl1, Hcr1.
  rewrite attempts_of_app in Ha1. rewrite sleeps_of_app in Hsl1.
  rewrite creates_of_app in Hcr1. simpl in Ha1, Hsl1, Hcr1.
  rewrite app_nil_r in Hsl1, Hcr1.
  set (b1 := take (Z.to_nat bs) (map g (x :: items))).
  assert (embed_many_body E (PList (x :: items)) pre bs ab kw st1
          = (Err e0, add_event (EvCreate (req b1)) st1)) as Hfirst.
  { unfold embed_many_body.
    replace (negb (isinstance_str x)) with false
      by (inversion Hstr; subst; by rewrite H1).
    unfold bind at 1, get_self at 1, pop_dtype.
    rewrite (batchify_chunks (x :: items) bs pre g Hbs Hpre).
    change (chunks (length (x :: items)) (Z.to_nat bs) (map g (x :: items)))
      with (b1 :: chunks (length items) (Z.to_nat bs)
                    (drop (Z.to_nat bs) (map g (x :: items)))).
    cbn [map embed_many_loop].
    unfold bind at 1, lift at 1. unfold bind at 1, get_client at 1.
    rewrite Hs1, Hc. unfold bind at 1, get_self at 1.
    unfold bind at 1, create at 1. rewrite Hs1.
    rewrite Hfail by (by rewrite Hsl1). reflexivity. }
  (* the sleep and the second attempt *)
  set (s2 := add_event (EvSleep (wait_high 1))
               (add_event (EvCreate (req b1)) st1)).
  set (st2 := warned kw (add_event (EvAttempt 2) s2)).
  destruct (warned_frame kw (add_event (EvAttempt 2) s2))
    as (Hs2 & Ha2 & Hsl2 & Hcr2). fold st2 in Hs2, Ha2, Hsl2, Hcr2.
  simpl in Hs2, Ha2, Hsl2, Hcr2.
  rewrite !attempts_of_app in Ha2. rewrite !sleeps_of_app in Hsl2.
  rewrite !creates_of_app in Hcr2. simpl in Ha2, Hsl2, Hcr2.
  rewrite !app_nil_r in Ha2, Hsl2, Hcr2.
  rewrite Hsl1, Hsl in Hsl2. rewrite Ha1 in Ha2. rewrite Hcr1 in Hcr2.
  simpl in Hsl2.
  assert (_client (self st2) = Some c) as Hc2 by (by rewrite Hs2, Hs1).
  destruct (embed_many_loop_ok_on E (fun lg => sleeps_of lg <> [])
              (fun t v => v = f t) c ab dt (delete "dtype" kw)
              sleeps_stay) with (batches := batches) (acc := @nil embedding)
              (st := st2)
    as (embs & st' & Hloop & HF & Hs' & Hl'); [|done|done|by rewrite Hsl2|].
  { intros lg r Hlg. exists (map f (r_input r)).
    split; [by apply Hanswer|]. induction (r_input r); constructor; auto. }
  exists embs, st'. split; [|split; [|split; [|split]]].
  - unfold embed_many, retry. rewrite retry_loop_unfold.
    rewrite deprecated_argument_warned. fold st1. rewrite Hfirst.
    unfold retry_if_not_TypeError. rewrite He0.
    change (stop_after_attempt - 1) with 5. cbn [negb].
    fold s2. apply retry_loop_Ok.
    rewrite deprecated_argument_warned. fold st2.
    unfold embed_many_body.
    replace (negb (isinstance_str x)) with false
      by (inversion Hstr; subst; by rewrite H1).
    unfold bind at 1, get_self at 1, pop_dtype.
    rewrite (batchify_chunks (x :: items) bs pre g Hbs Hpre).
    rewrite Hs2, Hs1. exact Hloop.
  - unfold batches in HF. rewrite chunks_concat in HF;
      [|lia|by rewrite length_map]. fold dt.
    clear -HF. revert embs HF.
    induction (x :: items) as [|t ts IH]; intros embs HF; inversion HF; subst;
      constructor; auto.
    match goal with H : exists v, _ |- _ => destruct H as (v & -> & Hv) end.
    done.
  - rewrite Hl', attempts_of_app, Ha2.
    rewrite (proj1 (create_events_no_attempt _ batches)).
    by rewrite app_nil_r, <- app_assoc.
  - rewrite Hl', sleeps_of_app, Hsl2.
    by rewrite (proj2 (create_events_no_attempt _ batches)).
  - rewrite Hl', creates_of_app, Hcr2, Hs2, Hs1.
    rewrite <- (map_map (batch_request _ _) EvCreate), creates_of_requests.
    by rewrite <- app_assoc.
Qed.

Lemma embed_many_starts_again_after_a_failure_witness :
  let texts := [PStr "a"; PStr "b"; PStr "c"] in
  let req := batch_request "text-embedding-ada-002" (delete "dtype" ∅) in
  exists embs st',
    embed_many Scenarios.env_flaky (PList texts) None 2 false ∅ Examples.ready
      = (Ok embs, st') /\
    Forall2 (fun t e => Ok (Floats Examples.v3) = Ok e) texts embs /\
    attempts_of (log st') = [1; 2] /\
    sleeps_of (log st') = [1%Z] /\
    creates_of (log st')
      = [req [PStr "a"; PStr "b"]; req [PStr "a"; PStr "b"]; req [PStr "c"]].
Proof.
  intros texts req.
  assert (Forall (fun t => isinstance_str t = true) texts) as Hstr
    by (repeat constructor).
  apply (embed_many_starts_again_after_a_failure Scenarios.env_flaky
           Examples.a_client Examples.ready (PStr "a") [PStr "b"; PStr "c"]
           None (fun x => x) 2 false ∅ (fun _ => Examples.v3)
           (OtherError "APIConnectionError" "Connection error.")
           (conj eq_refl eq_refl) Hstr eq_refl (fun x => eq_refl)
           (fun H => False_ind _ (Bool.diff_false_true H)) eq_refl eq_refl).
  - intros c lg r H. simpl. by rewrite H.
  - intros c lg r H. simpl. by destruct (sleeps_of lg).
Defined.

(** ** The steps of the constructor *)

(** What a successful initialisation of the clients has done. *)
Lemma initialize_clients_Ok_full E cfg kw st s1 :
  _initialize_clients E cfg kw st = (Ok tt, s1) ->
  openai_installed E = true /\
  exists k,
    truthy k = true /\
    (if dict_truthy (config_of cfg)
     then config_of cfg !! "api_key" = Some k
     else k = match environ E !! "OPENAI_API_KEY" with
              | Some v => PStr v
              | None => PNone
              end) /\
    let c := {| c_api_key := k;
                c_options := delete "api_key" (config_of cfg) ∪ kw |} in
    self s1 = {| model := model (self st); dtype := dtype (self st);
                 dims := dims (self st);
                 _client := Some c; _aclient := Some c |} /\
    log s1 = log st ++ (if dict_truthy (config_of cfg) then []
                        else [EvGetenv "OPENAI_API_KEY"]).
Proof.
  unfold _initialize_clients. fold (config_of cfg).
  destruct (openai_installed E); [|done]. simpl. intros H.
  split; [done|]. revert H. unfold bind at 1.
  destruct (dict_truthy (config_of cfg)) eqn:Hd.
  - unfold lift at 1, pop_api_key.
    destruct (config_of cfg !! "api_key") as [k|]; [|done].
    destruct (truthy k) eqn:Hk; [|done]. simpl.
    unfold bind, lift, set_client, set_aclient.
    destruct (new_client k (delete "api_key" (config_of cfg)) kw) as [c|] eqn:Hn;
      [|done].
    intros [= <-]. exists k. split; [done|]. split; [done|]. simpl.
    unfold new_client in Hn.
    destruct (_ && _); [|done]. injection Hn as <-.
    by rewrite app_nil_r.
  - apply dict_truthy_empty in Hd. rewrite Hd.
    unfold getenv, bind, emit, ret.
    set (k := match environ E !! "OPENAI_API_KEY" with
              | Some v => PStr v
              | None => PNone
              end).
    destruct (truthy k) eqn:Hk; [|done]. simpl.
    unfold lift, set_client, set_aclient.
    destruct (new_client k ∅ kw) as [c|] eqn:Hn; [|done].
    intros [= <-]. exists k. split; [done|]. split; [done|]. simpl.
    unfold new_client in Hn.
    destruct (_ && _); [|done]. injection Hn as <-.
    by rewrite delete_empty.
Qed.


(** The steps of a constructor that returns. *)
Lemma init_Ok_inv E mdl cfg dt kw st st' :
  __init__ E mdl cfg dt kw st = (Ok tt, st') ->
  exists s0 s1 s c v rest,
    base_init E mdl dt st = (Ok tt, s0) /\
    _initialize_clients E cfg kw s0 = (Ok tt, s1) /\
    self s = self s1 /\ _client (self s1) = Some c /\
    remote_create E c (log s) (probe_request (model (self s1)))
      = Ok (v :: rest) /\
    st' = (set_dims (length v)
             (add_event (EvCreate (probe_request (model (self s1)))) s)).2.
Proof.
  rewrite init_unfold.
  destruct (base_init E mdl dt st) as [[[]|e0] s0] eqn:Hb; [|done].
  destruct (_initialize_clients E cfg kw s0) as [[[]|e1] s1] eqn:Hi; [|done].
  unfold bind.
  destruct (embed E (PStr "dimension check") None false ∅ s1)
    as [[emb|e] s2] eqn:Hp.
  - rewrite (set_model_dims_Ok _ _ _ _ Hp).
    apply probe_Ok_inv in Hp as (s & c & v & rest & Hs & Hc & Hr & -> & ->).
    intros [= <-]. by exists s0, s1, s, c, v, rest.
  - by rewrite (set_model_dims_Err _ _ _ _ Hp).
Qed.

(** X6. When the constructor returns, the object is complete: it holds the
    model and the datatype it was given, a dimension, and two clients that
    are configured alike, with a key that is truthy and with the remaining
    entries of [api_config] (without ["api_key"]) and the extra keyword
    arguments as options.  The key is the ["api_key"] entry when
    [api_config] is not empty, the value of [OPENAI_API_KEY] otherwise.  The
    [openai] package is installed and the datatype is one that the buffer
    helper accepts. *)
Theorem a_constructed_vectorizer_is_complete E mdl cfg dt kw st st' :
  __init__ E mdl cfg dt kw st = (Ok tt, st') ->
  openai_installed E = true /\
  is_Some (dtype_itemsize E (PStr dt)) /\
  exists k d,
    truthy k = true /\
    (if dict_truthy (config_of cfg)
     then config_of cfg !! "api_key" = Some k
     else exists v, k = PStr v /\ environ E !! "OPENAI_API_KEY" = Some v) /\
    let c := {| c_api_key := k;
                c_options := delete "api_key" (config_of cfg) ∪ kw |} in
    self st' = {| model := mdl; dtype := dt; dims := Some d;
                  _client := Some c; _aclient := Some c |} /\
    constructed c st'.
Proof.
  intros H. apply init_Ok_inv in H
    as (s0 & s1 & s & c & v & rest & Hb & Hi & Hs & Hc & Hr & ->).
  apply initialize_clients_Ok_full in Hi as (Hinst & k & Hk & Hsrc & Hs1 & _).
  split; [done|]. split.
  { unfold base_init in Hb. by destruct (dtype_itemsize E (PStr dt)). }
  apply base_init_inv in Hb as [_ Hs0]. specialize (Hs0 eq_refl).
  exists k, (length v). split; [done|]. split.
  { destruct (dict_truthy (config_of cfg)); [done|]. subst k.
    destruct (environ E !! "OPENAI_API_KEY") as [key|]; [|done].
    by exists key. }
  unfold set_dims, constructed. simpl. rewrite Hs, Hs1, Hs0. simpl. done.
Qed.

Lemma a_constructed_vectorizer_is_complete_witness :
  let st' := (__init__ Scenarios.env_key "text-embedding-3-small" None
                "float32" ∅ Examples.blank).2 in
  openai_installed Scenarios.env_key = true /\
  is_Some (dtype_itemsize Scenarios.env_key (PStr "float32")) /\
  exists k d,
    truthy k = true /\
    (if dict_truthy (config_of None)
     then config_of None !! "api_key" = Some k
     else exists v, k = PStr v /\
                    environ Scenarios.env_key !! "OPENAI_API_KEY" = Some v) /\
    let c := {| c_api_key := k;
                c_options := delete "api_key" (config_of None) ∪ ∅ |} in
    self st' = {| model := "text-embedding-3-small"; dtype := "float32";
                  dims := Some d; _client := Some c; _aclient := Some c |} /\
    constructed c st'.
Proof.
  intros st'.
  apply (a_constructed_vectorizer_is_complete Scenarios.env_key
           "text-embedding-3-small" None "float32" ∅ Examples.blank st').
  vm_compute. reflexivity.
Defined.

(** The constructor with the key of the environment: the object it leaves. *)
Example init_with_the_key_of_the_environment :
  self (__init__ Scenarios.env_key "text-embedding-3-small" None
          "float32" ∅ Examples.blank).2
  = {| model := "text-embedding-3-small"; dtype := "float32";
       dims := Some 3;
       _client := Some {| c_api_key := PStr "sk-env"; c_options := ∅ |};
       _aclient := Some {| c_api_key := PStr "sk-env"; c_options := ∅ |} |}.
Proof. vm_compute. reflexivity. Qed.

(** X7. Without [api_config], or with an empty one, a non-empty
    [OPENAI_API_KEY] of the process environment is the key of both clients,
    whose options are the extra keyword arguments. *)
Theorem the_key_falls_back_to_the_environment E cfg kw st key :
  cfg = None \/ cfg = Some ∅ ->
  openai_installed E = true ->
  environ E !! "OPENAI_API_KEY" = Some key ->
  key <> "" ->
  kw !! "api_key" = None ->
  let c := {| c_api_key := PStr key; c_options := kw |} in
  _initialize_clients E cfg kw st
  = (Ok tt,
     {| self := {| model := model (self st); dtype := dtype (self st);
                   dims := dims (self st);
                   _client := Some c; _aclient := Some c |};
        log := log st ++ [EvGetenv "OPENAI_API_KEY"] |}).
Proof.
  intros Hcfg Hi Hkey Hne Hkw c.
  assert (_initialize_clients E cfg kw st = _initialize_clients E None kw st)
    as -> by (by destruct Hcfg as [->| ->]).
  unfold _initialize_clients. rewrite Hi. simpl. unfold bind at 1.
  rewrite (proj2 (dict_truthy_empty ∅) eq_refl).
  unfold getenv, bind, emit, ret. rewrite Hkey.
  assert (truthy (PStr key) = true) as -> by (by destruct key).
  simpl. unfold lift, new_client.
  rewrite dom_empty_L, (left_id_L ∅ (∪)), (left_id_L ∅ (∪)).
  rewrite bool_decide_eq_true_2 by set_solver.
  rewrite bool_decide_eq_true_2
    by (by intros ?%elem_of_dom; destruct (kw !! "api_key")).
  reflexivity.
Qed.

Lemma the_key_falls_back_to_the_environment_witness :
  let c := {| c_api_key := PStr "sk-env"; c_options := ∅ |} in
  _initialize_clients Scenarios.env_key None ∅ Examples.blank
  = (Ok tt,
     {| self := {| model := ""; dtype := ""; dims := None;
                   _client := Some c; _aclient := Some c |};
        log := [EvGetenv "OPENAI_API_KEY"] |}).
Proof.
  apply (the_key_falls_back_to_the_environment Scenarios.env_key None ∅
           Examples.blank "sk-env").
  - by left.
  - reflexivity.
  - reflexivity.
  - discriminate.
  - reflexivity.
Defined.

(** X8. With [openai] installed and a valid datatype, a key that is missing
    or empty is a [ValueError]: an ["api_key"] entry of a non-empty
    [api_config] that is falsy (such as the empty string or [None]), or,
    without [api_config] or with an empty one, an [OPENAI_API_KEY] that is
    unset or empty.  No client is created and the endpoint is not called. *)
Theorem a_missing_key_is_a_value_error E mdl cfg dt kw st :
  openai_installed E = true ->
  is_Some (dtype_itemsize E (PStr dt)) ->
  (if dict_truthy (config_of cfg)
   then exists k, config_of cfg !! "api_key" = Some k /\ truthy k = false
   else environ E !! "OPENAI_API_KEY" = None \/
        environ E !! "OPENAI_API_KEY" = Some "") ->
  exists msg st',
    __init__ E mdl cfg dt kw st = (Err (ValueError msg), st') /\
    creates_of (log st') = creates_of (log st) /\
    _client (self st') = None /\ _aclient (self st') = None.
Proof.
  intros Hi Hdt Hkey.
  rewrite init_unfold, (base_init_Ok E mdl dt st Hdt).
  unfold _initialize_clients. fold (config_of cfg). rewrite Hi. simpl.
  unfold bind at 1.
  destruct (dict_truthy (config_of cfg)).
  - destruct Hkey as (k & Hk & Hfalsy).
    unfold lift at 1, pop_api_key. rewrite Hk, Hfalsy. simpl.
    by eexists _, _.
  - unfold getenv, bind, emit, ret.
    assert (truthy match environ E !! "OPENAI_API_KEY" with
                   | Some v => PStr v
                   | None => PNone
                   end = false) as ->
      by (by destruct Hkey as [-> | ->]).
    simpl. eexists _, _. split; [done|]. simpl.
    rewrite creates_of_app. simpl. by rewrite app_nil_r.
Qed.

Lemma a_missing_key_is_a_value_error_witness :
  (exists msg st',
     __init__ Examples.env_up "text-embedding-ada-002" None "float32" ∅
       Examples.blank = (Err (ValueError msg), st') /\
     creates_of (log st') = creates_of (log Examples.blank) /\
     _client (self st') = None /\ _aclient (self st') = None) /\
  (exists msg st',
     __init__ Scenarios.env_key "text-embedding-ada-002"
       (Some {[ "api_key" := PStr "" ]}) "float32" ∅ Examples.blank
       = (Err (ValueError msg), st') /\
     creates_of (log st') = creates_of (log Examples.blank) /\
     _client (self st') = None /\ _aclient (self st') = None).
Proof.
  split.
  - apply a_missing_key_is_a_value_error; [reflexivity | by exists 4 |].
    vm_compute. by left.
  - apply a_missing_key_is_a_value_error; [reflexivity | by exists 4 |].
    vm_compute. by exists (PStr "").
Defined.

(** X9. Without the [openai] package the constructor raises an
    [ImportError], whatever the configuration and the environment hold: the
    key is not looked up, no client is created and nothing is added to the
    trace. *)
Theorem without_openai_the_constructor_is_an_import_error
    E mdl cfg dt kw st :
  openai_installed E = false ->
  is_Some (dtype_itemsize E (PStr dt)) ->
  exists msg st',
    __init__ E mdl cfg dt kw st = (Err (ImportError msg), st') /\
    log st' = log st /\
    _client (self st') = None /\ _aclient (self st') = None.
Proof.
  intros Hi Hdt.
  rewrite init_unfold, (base_init_Ok E mdl dt st Hdt).
  unfold _initialize_clients. rewrite Hi. simpl. by eexists _, _.
Qed.

Lemma without_openai_the_constructor_is_an_import_error_witness :
  exists msg st',
    __init__ Scenarios.env_no_openai "text-embedding-ada-002"
      (Some {[ "organization" := PStr "org-1" ]}) "float32" ∅ Examples.blank
      = (Err (ImportError msg), st') /\
    log st' = log Examples.blank /\
    _client (self st') = None /\ _aclient (self st') = None.
Proof.
  apply without_openai_the_constructor_is_an_import_error;
    [reflexivity | by exists 4].
Defined.



(** X13. The declared dimension is the dimension of the embeddings.  When
    the endpoint returns one vector of dimension [d] per input, a
    constructor that returns has set [dims] to [d], and [embed_many] on the
    constructed vectorizer, for a list of N strings and a positive batch
    size, returns N lists of floats whose length is the declared [dims]. *)
Theorem the_declared_dims_is_the_length_of_the_embeddings
    E mdl cfg dt kw st st1 d items pre g bs :
  remote_answers E (fun _ v => length v = d) ->
  __init__ E mdl cfg dt kw st = (Ok tt, st1) ->
  Forall (fun t => isinstance_str t = true) items ->
  (0 < bs)%Z ->
  preprocess_as pre g ->
  dims (self st1) = Some d /\
  exists embs st2,
    embed_many E (PList items) pre bs false ∅ st1 = (Ok embs, st2) /\
    length embs = length items /\
    Forall (fun e => exists v, e = Floats v /\
                               dims (self st2) = Some (length v)) embs.
Proof.
  intros Hrem Hinit Hstr Hbs Hpre.
  apply init_Ok_inv in Hinit
    as (s0 & s1 & s & c & v & rest & _ & _ & Hs & Hc & Hr & ->).
  assert (length v = d) as Hv.
  { destruct (Hrem c (log s) (probe_request (model (self s1))))
      as (vs & Hvs & HF).
    rewrite Hr in Hvs. injection Hvs as <-. by inversion HF. }
  set (st1 := (set_dims (length v)
                 (add_event (EvCreate (probe_request (model (self s1)))) s)).2).
  assert (dims (self st1) = Some d) as Hd by (simpl; by rewrite Hv).
  assert (_client (self st1) = Some c) as Hc1 by (simpl; by rewrite Hs).
  split; [exact Hd|].
  destruct (embed_many_ok E _ c st1 items pre g bs false ∅ Hc1
              (strings_not_rejected _ Hstr) Hbs Hpre Hrem
              (fun H => False_ind _ (Bool.diff_false_true H)))
    as (embs & st2 & Hcall & HF & Hs2 & _).
  exists embs, st2. split; [exact Hcall|]. split.
  - apply Forall2_length in HF. by rewrite length_map in HF.
  - rewrite Hs2, Hd. clear -HF.
    induction HF as [|x e xs es (v' & Hv' & He) _ IH]; constructor; [|done].
    apply process_embedding_form in He. destruct e as [w|? ? ?].
    + destruct He as [_ ->]. exists v'. by rewrite Hv'.
    + by destruct He as [? _].
Qed.

Lemma the_declared_dims_is_the_length_of_the_embeddings_witness :
  let st1 := (__init__ Examples.env_up "text-embedding-ada-002"
                (Some {[ "api_key" := PStr "sk-test" ]}) "float32" ∅
                Examples.blank).2 in
  dims (self st1) = Some 3 /\
  exists embs st2,
    embed_many Examples.env_up (PList [PStr "a"; PStr "b"; PStr "c"]) None 2
      false ∅ st1 = (Ok embs, st2) /\
    length embs = 3 /\
    Forall (fun e => exists v, e = Floats v /\
                               dims (self st2) = Some (length v)) embs.
Proof.
  intros st1.
  apply (the_declared_dims_is_the_length_of_the_embeddings Examples.env_up
           "text-embedding-ada-002" (Some {[ "api_key" := PStr "sk-test" ]})
           "float32" ∅ Examples.blank st1 3
           [PStr "a"; PStr "b"; PStr "c"] None (fun x => x) 2
           env_up_answers).
  - vm_compute. reflexivity.
  - repeat constructor.
  - reflexivity.
  - intros x. reflexivity.
Defined.

(** ** A preprocessing that raises *)

Lemma retry_loop_same_failure {A} (fn : M A) e :
  is_TypeError e = false ->
  (forall s, exists s', fn s = (Err e, s') /\
                        creates_of (log s') = creates_of (log s)) ->
  forall k n st,
    exists st',
      retry_loop k n fn st = (Err (RetryError e), st') /\
      creates_of (log st') = creates_of (log st).
Proof.
  intros He Hfn. induction k as [|k IH]; intros n st;
    rewrite retry_loop_unfold;
    destruct (Hfn (add_event (EvAttempt n) st)) as (s1 & -> & Hl1);
    simpl in Hl1; rewrite creates_of_app in Hl1; simpl in Hl1;
    rewrite app_nil_r in Hl1;
    unfold retry_if_not_TypeError; rewrite He; simpl.
  - by exists s1.
  - destruct (IH (S n) (add_event (EvSleep (wait_high n)) s1))
      as (st' & -> & Hl').
    exists st'. split; [done|]. rewrite Hl'. simpl.
    rewrite creates_of_app, Hl1. simpl. by rewrite app_nil_r.
Qed.

(** X12. The preprocessing runs inside the retried body of [embed].  When
    it raises a [TypeError] on the text, the call raises it after one
    attempt; when it raises anything else, the preprocessing is run again at
    each of the six attempts and the call ends with a [RetryError] that
    carries its exception.  In both cases the endpoint is never called. *)
Theorem a_failing_preprocess_is_retried_like_the_endpoint
    E st text f ab kw e :
  isinstance_str text = true ->
  f text = Err e ->
  exists st',
    embed E text (Some f) ab kw st
      = (Err (if is_TypeError e then e else RetryError e), st') /\
    creates_of (log st') = creates_of (log st) /\
    attempts_of (log st')
      = attempts_of (log st) ++ (if is_TypeError e then [1] else seq 1 6).
Proof.
  intros Hstr Hf.
  assert (forall s, embed_body E text (Some f) ab kw s = (Err e, s)) as Hbody.
  { intros s. unfold embed_body. rewrite Hstr. simpl.
    unfold bind at 1, lift. by rewrite Hf. }
  destruct (is_TypeError e) eqn:He.
  - exists (warned kw (add_event (EvAttempt 1) st)).
    destruct (warned_frame kw (add_event (EvAttempt 1) st))
      as (_ & Ha & _ & Hcr).
    split; [|split].
    + unfold embed, retry. apply retry_loop_TypeError; [|done].
      by rewrite deprecated_argument_warned, Hbody.
    + rewrite Hcr. simpl. rewrite creates_of_app. simpl.
      by rewrite app_nil_r.
    + rewrite Ha. simpl. by rewrite attempts_of_app.
  - destruct (retry_loop_same_failure
                (deprecated_argument "dtype" kw
                   (embed_body E text (Some f) ab kw)) e He)
      with (k := stop_after_attempt - 1) (n := 1) (st := st)
      as (st' & Hcall & Hcr).
    { intros s. rewrite deprecated_argument_warned, Hbody.
      eexists. split; [done|]. by destruct (warned_frame kw s) as (_ & _ & _ & ->). }
    exists st'. split; [exact Hcall|]. split; [exact Hcr|].
    destruct (retry_exhausted kw (embed_body E text (Some f) ab kw) st
                (extends_embed_body E text (Some f) ab kw))
      as (e' & _ & _ & Ha & _).
    { intros s. exists e. by rewrite Hbody. }
    unfold retry in Ha. rewrite Hcall in Ha. exact Ha.
Qed.

Lemma a_failing_preprocess_is_retried_like_the_endpoint_witness :
  let f := fun _ : pyval => @Err pyval (ValueError "cannot clean") in
  exists st',
    embed Examples.env_up (PStr "a") (Some f) false ∅ Examples.ready
      = (Err (RetryError (ValueError "cannot clean")), st') /\
    creates_of (log st') = creates_of (log Examples.ready) /\
    attempts_of (log st') = attempts_of (log Examples.ready) ++ seq 1 6.
Proof.
  intros f.
  exact (a_failing_preprocess_is_retried_like_the_endpoint Examples.env_up
           Examples.ready (PStr "a") f false ∅ (ValueError "cannot clean")
           eq_refl eq_refl).
Defined.
